(** * diff2html-cli: the command-line core ([src/cli.ts])

    A shallow embedding of the functions of [cli.ts] and the properties its
    design document states about them: the git argument builder, the template
    compositor, the output formatter and the remote publisher. *)

From Stdlib Require Import Strings.Ascii Strings.String.
From Stdlib Require Import List Bool Arith Lia ZArith.
Import ListNotations.

Set Warnings "-register-all".

(** ** Strings

    A JavaScript string is modelled as the list of its characters; literals of
    the source are written [lit "..."]. *)

Definition str : Type := list ascii.

Definition lit (s : string) : str := list_ascii_of_string s.

Fixpoint str_eqb (a b : str) : bool :=
  match a, b with
  | [], [] => true
  | x :: a', y :: b' => Ascii.eqb x y && str_eqb a' b'
  | _, _ => false
  end.

(** [startsWith p s]: [p] is a prefix of [s]. *)
Fixpoint startsWith (p s : str) : bool :=
  match p, s with
  | [], _ => true
  | x :: p', y :: s' => Ascii.eqb x y && startsWith p' s'
  | _ :: _, [] => false
  end.

(** [Array.prototype.includes] on an array of strings. *)
Definition includes (l : list str) (x : str) : bool := existsb (str_eqb x) l.

(** A boolean inside a template literal. *)
Definition string_of_bool (b : bool) : str :=
  if b then lit "true" else lit "false".

(** A string is truthy when it is not empty. *)
Definition truthy (s : str) : bool :=
  match s with [] => false | _ :: _ => true end.

Definition newline : str := [ascii_of_nat 10].

(** [occurs m d]: the literal [m] is a substring of [d]. *)
Definition occurs (m d : str) : Prop := exists pre post, d = pre ++ m ++ post.

(** The same, as a test. *)
Fixpoint occursb (m d : str) : bool :=
  startsWith m d || match d with [] => false | _ :: d' => occursb m d' end.

(** ** Git argument builder *)

Definition defaultArgs : list str := [lit "-M"; lit "-C"; lit "HEAD"].

Definition exclude (path : str) : str := lit ":(exclude)" ++ path.

Definition generateGitDiffArgs (gitArgsArr ignore : list str) : list str :=
  let gitDiffArgs := [lit "diff"] in
  let gitDiffArgs :=
    if negb (includes gitArgsArr (lit "--no-color"))
    then gitDiffArgs ++ [lit "--no-color"] else gitDiffArgs in
  let gitDiffArgs :=
    if Nat.eqb (length gitArgsArr) 0
    then gitDiffArgs ++ defaultArgs else gitDiffArgs in
  let gitDiffArgs := gitDiffArgs ++ gitArgsArr in
  if Nat.ltb 0 (length ignore) then
    let gitDiffArgs :=
      if negb (includes gitArgsArr (lit "--"))
      then gitDiffArgs ++ [lit "--"] else gitDiffArgs in
    gitDiffArgs ++ map exclude ignore
  else gitDiffArgs.

(** Number of entries of an argument vector equal to [x]. *)
Definition occurrences (x : str) (l : list str) : nat :=
  length (filter (str_eqb x) l).

(** ** Theme fragments *)

Definition dquote : str := [ascii_of_nat 34].

(** [q s] is [s] between double quotes. *)
Definition q (s : string) : str := dquote ++ lit s ++ dquote.

(** The lines of a multi-line template literal, joined by line feeds. *)
Fixpoint lines (l : list str) : str :=
  match l with
  | [] => []
  | [x] => x
  | x :: rest => x ++ newline ++ lines rest
  end.

Definition lightGitHubTheme : str :=
  lit "<link rel=" ++ q "stylesheet" ++ lit " href="
  ++ q "https://cdnjs.cloudflare.com/ajax/libs/highlight.js/11.9.0/styles/github.min.css"
  ++ lit " />".

Definition darkGitHubTheme : str :=
  lit "<link rel=" ++ q "stylesheet" ++ lit " href="
  ++ q "https://cdnjs.cloudflare.com/ajax/libs/highlight.js/11.9.0/styles/github-dark.min.css"
  ++ lit " />".

Definition autoGitHubTheme : str :=
  lines
    [ lit "<link rel=" ++ q "stylesheet" ++ lit " href="
      ++ q "https://cdnjs.cloudflare.com/ajax/libs/highlight.js/11.9.0/styles/github.min.css"
      ++ lit " media=" ++ q "screen and (prefers-color-scheme: light)" ++ lit " />";
      lit "<link rel=" ++ q "stylesheet" ++ lit " href="
      ++ q "https://cdnjs.cloudflare.com/ajax/libs/highlight.js/11.9.0/styles/github-dark.min.css"
      ++ lit " media=" ++ q "screen and (prefers-color-scheme: dark)" ++ lit " />" ].

Definition lightBaseStyle : str :=
  lines
    [ lit "<style>";
      lit "body {";
      lit "  background-color: var(--d2h-bg-color);";
      lit "}";
      lit "h1 {";
      lit "  color: var(--d2h-light-color);";
      lit "}";
      lit "</style>" ].

Definition darkBaseStyle : str :=
  lines
    [ lit "<style>";
      lit "body {";
      lit "  background-color: rgb(13, 17, 23);";
      lit "}";
      lit "h1 {";
      lit "  color: var(--d2h-dark-color);";
      lit "}";
      lit "</style>" ].

Definition autoBaseStyle : str :=
  lines
    [ lit "<style>";
      lit "@media screen and (prefers-color-scheme: light) {";
      lit "  body {";
      lit "    background-color: var(--d2h-bg-color);";
      lit "  }";
      lit "  h1 {";
      lit "    color: var(--d2h-light-color);";
      lit "  }";
      lit "}";
      lit "@media screen and (prefers-color-scheme: dark) {";
      lit "  body {";
      lit "    background-color: rgb(13, 17, 23);";
      lit "  }";
      lit "  h1 {";
      lit "    color: var(--d2h-dark-color);";
      lit "  }";
      lit "}";
      lit "</style>" ].

(** ** Data model *)

(** [ColorSchemeType] of the rendering library. *)
Inductive ColorSchemeType : Type := AUTO | DARK | LIGHT.

(** The output format tag of the configuration. *)
Inductive OutputType : Type := html_format | json_format.

(** Where the published link goes. *)
Inductive DiffyType : Type := browser | pbcopy | print.

(** The fields of [Configuration] that [cli.ts] reads. *)
Record Configuration : Type := {
  htmlWrapperTemplate : str;
  pageTitle : str;
  pageHeader : str;
  commitMessage : str;
  showFilesOpen : bool;
  fileContentToggle : bool;
  synchronisedScroll : bool;
  highlightCode : bool;
  formatType : OutputType
}.

(** A parsed JSON body.  A number is kept as the decimal text that
    JavaScript prints for it, an object as its own properties in order. *)
Inductive JSON : Type :=
| JNull
| JBool (b : bool)
| JNum (printed : str)
| JStr (s : str)
| JArr (items : list JSON)
| JObj (props : list (str * JSON)).

(** ** Effects: exit code, calls to the collaborators, thrown errors *)

Inductive JsError : Type :=
| Error (message : str)
| TypeError (message : str)
| ReadError (path : str).

(** A call that leaves the core, in the order the calls are made. *)
Inductive Event : Type :=
| EvParse (input : str)
| EvRender
| EvReadFile (path : str)
| EvPut (url diff : str)
| EvPrint (line : str)
| EvOpen (target : str)
| EvClipboard (text : str).

Record Process : Type := {
  exitCode : option Z;
  trace : list Event
}.

Inductive Outcome (A : Type) : Type :=
| Returned (a : A)
| Thrown (e : JsError).

Arguments Returned {A} a.
Arguments Thrown {A} e.

Definition Eff (A : Type) : Type := Process -> Outcome A * Process.

Definition ret {A} (a : A) : Eff A := fun p => (Returned a, p).

Definition bind {A B} (m : Eff A) (k : A -> Eff B) : Eff B :=
  fun p =>
    match m p with
    | (Returned a, p') => k a p'
    | (Thrown e, p') => (Thrown e, p')
    end.

Definition throw {A} (e : JsError) : Eff A := fun p => (Thrown e, p).

(** A result that is already there: returned, or thrown. *)
Definition liftOutcome {A} (o : Outcome A) : Eff A := fun p => (o, p).

Definition emit (ev : Event) : Eff unit :=
  fun p => (Returned tt, {| exitCode := exitCode p; trace := trace p ++ [ev] |}).

Definition setExitCode (code : Z) : Eff unit :=
  fun p => (Returned tt, {| exitCode := Some code; trace := trace p |}).

Declare Scope eff_scope.
Delimit Scope eff_scope with eff.
Notation "x <- m ;; k" := (bind m (fun x => k))
  (at level 61, m at next level, right associativity) : eff_scope.
Notation "m ;; k" := (bind m (fun _ => k))
  (at level 61, right associativity) : eff_scope.
Open Scope eff_scope.

(** ** The collaborators

    What [cli.ts] imports from Node and from the rendering library: the file
    system, module and path resolution, the parser and the renderer, the JSON
    serializer and the answer of the remote service.  The core is written
    against this interface. *)

Class Runtime : Type := {
  (** [fs.existsSync] *)
  existsSync : str -> bool;
  (** the content of a readable file *)
  fileContent : str -> option str;
  (** [require.resolve], [path.dirname], [path.join], [path.resolve] *)
  require_resolve : str -> str;
  path_dirname : str -> str;
  path_join : list str -> str;
  path_resolve : list str -> str;
  (** [Diff2HtmlConfig] and its [colorScheme] field *)
  Diff2HtmlConfig : Type;
  colorScheme : Diff2HtmlConfig -> option ColorSchemeType;
  (** the diff model with [parse], [html] and [JSON.stringify] on it *)
  DiffModel : Type;
  parse : str -> Diff2HtmlConfig -> DiffModel;
  html : DiffModel -> Diff2HtmlConfig -> str;
  stringifyDiff : DiffModel -> str;
  (** [JSON.stringify(body, null, 2)] *)
  stringifyBody : JSON -> str;
  (** the parsed body the service answers to an upload *)
  remoteResponse : str -> str -> Outcome JSON;
  (** whether the platform clipboard takes a text; [clipboardy.writeSync]
      throws when the clipboard program fails *)
  clipboardWrite : str -> Outcome unit
}.

(** ** Helpers of the repository outside [cli.ts] *)

(** Modelled from the spec: [utils.replaceExactly] of [utils.js], which is not
    among the sources.  The caller's comment and section 4.3 of the design
    give it: the second argument of [String.prototype.replace] is a function,
    so the replacement is inserted as it is, and the search value is a
    literal, of which exactly one occurrence, the first, is replaced.  A
    value without the marker comes back unchanged. *)
Fixpoint replaceExactly (value searchValue replaceValue : str) : str :=
  if startsWith searchValue value
  then replaceValue ++ skipn (length searchValue) value
  else match value with
       | [] => []
       | c :: rest => c :: replaceExactly rest searchValue replaceValue
       end.

(** Modelled from the spec: [utils.readFile] of [utils.js]; a path that does
    not exist or is unreadable fails with a read error. *)
Definition readFile `{Runtime} (path : str) : Eff str :=
  emit (EvReadFile path) ;;
  match fileContent path with
  | Some content => ret content
  | None => throw (ReadError path)
  end.

(** Modelled from the spec: [put] of [http-utils.js]; uploads the payload and
    gives the parsed JSON body of the answer. *)
Definition put `{Runtime} (url diff : str) : Eff JSON :=
  emit (EvPut url diff) ;;
  match remoteResponse url diff with
  | Returned body => ret body
  | Thrown e => throw e
  end.

(** Modelled from the spec: [log.print] of [logger.js] emits one line. *)
Definition log_print (line : str) : Eff unit := emit (EvPrint line).

(** [open] starts the viewer and gives a promise that is not awaited: the
    call itself never throws. *)
Definition open (target : str) : Eff unit := emit (EvOpen target).

(** [clipboardy.writeSync] is synchronous: a clipboard that fails throws
    here. *)
Definition clipboardy_writeSync `{Runtime} (text : str) : Eff unit :=
  emit (EvClipboard text) ;; liftOutcome (clipboardWrite text).

(** ** Template compositor *)

Record Replacement : Type := {
  searchValue : str;
  replaceValue : str
}.

(** The two ternaries on [colorScheme]; an absent scheme is [None]. *)
Definition gitHubTheme (colorScheme : option ColorSchemeType) : str :=
  match colorScheme with
  | Some LIGHT => lightGitHubTheme
  | Some DARK => darkGitHubTheme
  | _ => autoGitHubTheme
  end.

Definition baseStyle (colorScheme : option ColorSchemeType) : str :=
  match colorScheme with
  | Some LIGHT => lightBaseStyle
  | Some DARK => darkBaseStyle
  | _ => autoBaseStyle
  end.

(** The array literal that [prepareHTML] reduces over. *)
Definition replacements (diffHTMLContent : str) (config : Configuration)
    (colorScheme : option ColorSchemeType) (cssContent jsUiContent : str)
    : list Replacement :=
  [ {| searchValue := lit "<!--diff2html-title-->";
       replaceValue := pageTitle config |};
    {| searchValue := lit "<!--diff2html-css-->";
       replaceValue :=
         baseStyle colorScheme ++ newline ++ gitHubTheme colorScheme ++ newline
         ++ lit "<style>" ++ newline ++ cssContent ++ newline ++ lit "</style>" |};
    {| searchValue := lit "<!--diff2html-js-ui-->";
       replaceValue :=
         lit "<script>" ++ newline ++ jsUiContent ++ newline ++ lit "</script>" |};
    {| searchValue := lit "//diff2html-fileListToggle";
       replaceValue :=
         lit "diff2htmlUi.fileListToggle(" ++ string_of_bool (showFilesOpen config)
         ++ lit ");" |};
    {| searchValue := lit "//diff2html-fileContentToggle";
       replaceValue :=
         if fileContentToggle config then lit "diff2htmlUi.fileContentToggle();" else [] |};
    {| searchValue := lit "//diff2html-synchronisedScroll";
       replaceValue :=
         if synchronisedScroll config then lit "diff2htmlUi.synchronisedScroll();" else [] |};
    {| searchValue := lit "//diff2html-highlightCode";
       replaceValue :=
         if highlightCode config then lit "diff2htmlUi.highlightCode();" else [] |};
    {| searchValue := lit "<!--diff2html-header-->";
       replaceValue := pageHeader config |};
    {| searchValue := lit "<!--diff2html-diff-->";
       replaceValue := diffHTMLContent |};
    {| searchValue := lit "<!--diff2html-commit-message-->";
       replaceValue := commitMessage config |} ].

(** The replacement value that the table holds for a marker. *)
Definition replacementFor (table : list Replacement) (m : str) : option str :=
  option_map replaceValue (find (fun r => str_eqb m (searchValue r)) table).

(** The [reduce] over the replacements, from the template. *)
Definition substitute (table : list Replacement) (template : str) : str :=
  fold_left
    (fun previousValue replacement =>
       replaceExactly previousValue (searchValue replacement) (replaceValue replacement))
    table template.

(** Where the bundles of the rendering library are. *)
Definition diff2htmlPath `{Runtime} : str :=
  path_join [path_dirname (require_resolve (lit "diff2html")); lit ".."].

Definition cssFilePath `{Runtime} : str :=
  path_resolve [diff2htmlPath; lit "bundles"; lit "css"; lit "diff2html.min.css"].

Definition jsUiFilePath `{Runtime} : str :=
  path_resolve [diff2htmlPath; lit "bundles"; lit "js"; lit "diff2html-ui-slim.min.js"].

Definition prepareHTML `{Runtime} (diffHTMLContent : str) (config : Configuration)
    (colorScheme : option ColorSchemeType) : Eff str :=
  template <- readFile (htmlWrapperTemplate config) ;;
  cssContent <- readFile cssFilePath ;;
  jsUiContent <- readFile jsUiFilePath ;;
  ret (substitute
         (replacements diffHTMLContent config colorScheme cssContent jsUiContent)
         template).

(** ** Output formatter *)

Definition getOutput `{Runtime} (options : Diff2HtmlConfig) (config : Configuration)
    (input : str) : Eff str :=
  if truthy (htmlWrapperTemplate config) && negb (existsSync (htmlWrapperTemplate config))
  then
    setExitCode 4 ;;
    throw (Error (lit "Template ('" ++ htmlWrapperTemplate config ++ lit "') not found!"))
  else
    emit (EvParse input) ;;
    let diffJson := parse input options in
    match formatType config with
    | html_format =>
        emit EvRender ;;
        let htmlContent := html diffJson options in
        prepareHTML htmlContent config (colorScheme options)
    | json_format => ret (stringifyDiff diffJson)
    end.

(** ** Remote publisher *)

(** The own property [key] of an object, [None] standing for [undefined]. *)
Fixpoint lookup (key : str) (props : list (str * JSON)) : option JSON :=
  match props with
  | [] => None
  | (k, v) :: rest => if str_eqb key k then Some v else lookup key rest
  end.

(** Reading the property [key] (one of [id] and [error], which no prototype
    defines) of a parsed body: [null] has no properties and the access throws,
    any other value that is not an object gives [undefined]. *)
Definition getProperty (obj : JSON) (key : str) : Outcome (option JSON) :=
  match obj with
  | JNull =>
      Thrown (TypeError (lit "Cannot read properties of null (reading '" ++ key ++ lit "')"))
  | JObj props => Returned (lookup key props)
  | _ => Returned None
  end.

(** What converting an object without a usable [toString] throws. *)
Definition cannotConvert : JsError :=
  TypeError (lit "Cannot convert object to primitive value").

(** A value inside a template literal or as the message of an [Error]: its
    conversion to a string.  An object converts through [toString]: the
    inherited one gives [[object Object]]; an own property [toString] of a
    parsed body is never a function, and the conversion then throws.  An
    array joins the conversions of its elements, [null] counting as the
    empty string. *)
Fixpoint ToString (v : JSON) : Outcome str :=
  match v with
  | JNull => Returned (lit "null")
  | JBool b => Returned (string_of_bool b)
  | JNum printed => Returned printed
  | JStr s => Returned s
  | JArr items =>
      (fix join (l : list JSON) : Outcome str :=
         match l with
         | [] => Returned []
         | x :: rest =>
             match (match x with JNull => Returned [] | _ => ToString x end) with
             | Thrown e => Thrown e
             | Returned first =>
                 match rest with
                 | [] => Returned first
                 | _ :: _ =>
                     match join rest with
                     | Thrown e => Thrown e
                     | Returned others => Returned (first ++ lit "," ++ others)
                     end
                 end
             end
         end) items
  | JObj props =>
      match lookup (lit "toString") props with
      | Some _ => Thrown cannotConvert
      | None => Returned (lit "[object Object]")
      end
  end.

(** A property read inside a template literal or as the message of an
    [Error]; behind the two guards of [postToDiffy] it is never [undefined]. *)
Definition templateString (v : option JSON) : Outcome str :=
  match v with Some x => ToString x | None => Returned (lit "undefined") end.

Definition isCreateDiffResponse (obj : JSON) : Eff bool :=
  fun p =>
    match getProperty obj (lit "id") with
    | Returned v => (Returned (match v with Some _ => true | None => false end), p)
    | Thrown e => (Thrown e, p)
    end.

Definition isApiError (obj : JSON) : Eff bool :=
  fun p =>
    match getProperty obj (lit "error") with
    | Returned v => (Returned (match v with Some _ => true | None => false end), p)
    | Thrown e => (Thrown e, p)
    end.

(** The value read back from a property the guard has found. *)
Definition field (obj : JSON) (key : str) : option JSON :=
  match getProperty obj key with
  | Returned v => v
  | Thrown _ => None
  end.

Definition postToDiffy `{Runtime} (diff : str) (diffyOutput : DiffyType) : Eff str :=
  response <- put (lit "https://diffy.org/api/diff/") diff ;;
  created <- isCreateDiffResponse response ;;
  if negb created then
    apiError <- isApiError response ;;
    if apiError then
      message <- liftOutcome (templateString (field response (lit "error"))) ;;
      throw (Error message)
    else
      throw (Error (lit "Could not find 'id' of created diff in the response json."
                    ++ newline ++ lit "Body:" ++ newline ++ newline
                    ++ stringifyBody response))
  else
    id <- liftOutcome (templateString (field response (lit "id"))) ;;
    let url := lit "https://diffy.org/diff/" ++ id in
    log_print (lit "Link powered by https://diffy.org") ;;
    log_print url ;;
    match diffyOutput with
    | browser => open url
    | pbcopy => clipboardy_writeSync url
    | print => ret tt
    end ;;
    ret url.

(** What a computation gives from a fresh process. *)
Definition fresh : Process := {| exitCode := None; trace := [] |}.

(** ** Templates as text around placeholders

    A template seen as pieces of text and holes, a hole naming the rule of the
    placeholder table (by its position) whose marker stands there.  [render i]
    writes the replacement value in the holes of the rules before [i] and the
    marker literal in the others: it is the document that is expected after
    [i] rules have run. *)

Inductive Piece : Type :=
| Text (s : str)
| Hole (k : nat).

Definition noRule : Replacement := {| searchValue := []; replaceValue := [] |}.

Definition marker (table : list Replacement) (k : nat) : str :=
  searchValue (nth k table noRule).

Definition value (table : list Replacement) (k : nat) : str :=
  replaceValue (nth k table noRule).

Fixpoint render (table : list Replacement) (i : nat) (pieces : list Piece) : str :=
  match pieces with
  | [] => []
  | Text s :: rest => s ++ render table i rest
  | Hole k :: rest =>
      (if Nat.ltb k i then value table k else marker table k) ++ render table i rest
  end.

(** The template as it is on disk, and with every value in its place. *)
Definition raw (table : list Replacement) (pieces : list Piece) : str :=
  render table 0 pieces.

Definition filled (table : list Replacement) (pieces : list Piece) : str :=
  render table (length table) pieces.

Fixpoint holes (pieces : list Piece) : list nat :=
  match pieces with
  | [] => []
  | Text _ :: rest => holes rest
  | Hole k :: rest => k :: holes rest
  end.

(** Each of the first [n] rules has exactly one hole, and there is no other
    hole. *)
Definition eachOnce (n : nat) (pieces : list Piece) : bool :=
  forallb (fun k => Nat.eqb (count_occ Nat.eq_dec (holes pieces) k) 1) (seq 0 n)
  && forallb (fun k => Nat.ltb k n) (holes pieces).

(** No literal of [ms] occurs in [d]. *)
Definition cleanOf (ms : list str) (d : str) : bool :=
  forallb (fun m => negb (occursb m d)) ms.

(** The ten markers of the placeholder table, in its order. *)
Definition markers : list str :=
  [ lit "<!--diff2html-title-->";
    lit "<!--diff2html-css-->";
    lit "<!--diff2html-js-ui-->";
    lit "//diff2html-fileListToggle";
    lit "//diff2html-fileContentToggle";
    lit "//diff2html-synchronisedScroll";
    lit "//diff2html-highlightCode";
    lit "<!--diff2html-header-->";
    lit "<!--diff2html-diff-->";
    lit "<!--diff2html-commit-message-->" ].

(** *** Markers that cannot overlap

    Two literals clash when a non-empty end of one and the other start alike
    (one is a prefix of the other), which is what two overlapping occurrences
    in one document need. *)

Definition compat (x y : str) : bool := startsWith x y || startsWith y x.

Fixpoint tails (a : str) : list str :=
  match a with
  | [] => []
  | _ :: a' => a :: tails a'
  end.

Definition clash (a b : str) : bool := existsb (fun s => compat s b) (tails a).

Definition sep (a b : str) : bool := negb (clash a b) && negb (clash b a).

Definition selfsep (a : str) : bool :=
  negb (existsb (fun s => compat s a) (tails (tl a))).

Fixpoint separated (ms : list str) : bool :=
  match ms with
  | [] => true
  | m :: rest => selfsep m && forallb (sep m) rest && separated rest
  end.

(** ** A concrete runtime, for the examples *)

Fixpoint joinWith (sepr : str) (l : list str) : str :=
  match l with
  | [] => []
  | [x] => x
  | x :: rest => x ++ sepr ++ joinWith sepr rest
  end.

(** A disk with a template at [template.html] and the two bundles of the
    rendering library. *)
Definition demoFiles (template : str) (path : str) : option str :=
  if str_eqb path (lit "template.html") then Some template
  else if str_eqb path (lit "/lib/diff2html/bundles/css/diff2html.min.css")
  then Some (lit ".d2h-wrapper{}")
  else if str_eqb path (lit "/lib/diff2html/bundles/js/diff2html-ui-slim.min.js")
  then Some (lit "var diff2htmlUi;")
  else None.

Definition demoRuntimeWith (template : str) (answer : Outcome JSON)
    (clipboard : str -> Outcome unit) : Runtime := {|
  existsSync := fun path =>
    match demoFiles template path with Some _ => true | None => false end;
  fileContent := demoFiles template;
  require_resolve := fun _ => lit "/lib/diff2html/lib/diff2html.js";
  path_dirname := fun _ => lit "/lib/diff2html/lib";
  path_join := fun _ => lit "/lib/diff2html";
  path_resolve := joinWith (lit "/");
  Diff2HtmlConfig := option ColorSchemeType;
  colorScheme := fun options => options;
  DiffModel := str;
  parse := fun input _ => input;
  html := fun model _ => lit "<div>" ++ model ++ lit "</div>";
  stringifyDiff := fun model => lit "[" ++ model ++ lit "]";
  stringifyBody := fun body =>
    match body with
    | JNull => lit "null"
    | JStr text => dquote ++ text ++ dquote
    | _ => lit "{}"
    end;
  remoteResponse := fun _ _ => answer;
  clipboardWrite := clipboard
|}.

(** The same with a clipboard that works. *)
Definition demoRuntime (template : str) (answer : Outcome JSON) : Runtime :=
  demoRuntimeWith template answer (fun _ => Returned tt).

Definition demoConfig (template : str) (format : OutputType) : Configuration := {|
  htmlWrapperTemplate := template;
  pageTitle := lit "$& diff";
  pageHeader := lit "Changes $1";
  commitMessage := lit "fix: $$ and $`";
  showFilesOpen := false;
  fileContentToggle := true;
  synchronisedScroll := false;
  highlightCode := true;
  formatType := format
|}.

(** A template with each of the ten markers once. *)
Definition demoPieces : list Piece :=
  [ Text (lit "<html><head><title>"); Hole 0; Text (lit "</title>"); Hole 1;
    Hole 2; Text (lit "<script>"); Hole 3; Hole 4; Text (lit " "); Hole 5;
    Hole 6; Text (lit "</script></head><body><h1>"); Hole 7;
    Text (lit "</h1><p>"); Hole 9; Text (lit "</p>"); Hole 8;
    Text (lit "</body></html>") ].

Definition demoTemplate : str :=
  raw (replacements [] (demoConfig (lit "template.html") html_format) None [] [])
    demoPieces.

(** The runtime of the examples: the template of [demoPieces] is on disk and
    the service answers with an id. *)
Definition demoAnswer : JSON := JObj [(lit "id", JStr (lit "abc123"))].

Definition demoWorld : Runtime := demoRuntime demoTemplate (Returned demoAnswer).



(** A page title that holds the text of a later marker, and a template with
    the title marker twice. *)
Definition hostileConfig : Configuration := {|
  htmlWrapperTemplate := lit "template.html";
  pageTitle := lit "T<!--diff2html-header-->";
  pageHeader := lit "Changes";
  commitMessage := lit "fix";
  showFilesOpen := true;
  fileContentToggle := true;
  synchronisedScroll := true;
  highlightCode := true;
  formatType := html_format
|}.

Definition doubledTemplate : str := demoTemplate ++ lit "<!--diff2html-title-->".

Definition doubledWorld : Runtime := demoRuntime doubledTemplate (Returned demoAnswer).

(** The same with a service that refuses the upload. *)
Definition demoRefusal : JSON := JObj [(lit "error", JStr (lit "too large"))].

Definition demoRefusingWorld : Runtime := demoRuntime demoTemplate (Returned demoRefusal).

(** ** Input resolver and preview writer

    The rest of [cli.ts]: [runGitDiff], [getInput] and [preview].  They leave
    the core through three more helpers of [utils.js] and through
    [os.tmpdir]. *)

(** What the machine answers to those calls. *)
Class Host : Type := {
  (** the standard output of a command line, or the failure of the
      subprocess *)
  executed : str -> list str -> Outcome str;
  (** the whole of standard input, or a stream error *)
  stdinText : Outcome str;
  (** whether a write to a path succeeds *)
  written : str -> str -> Outcome unit;
  (** what [utils.readFile] does when it is handed [undefined], the first
      element of an empty array *)
  readUndefined : Outcome str;
  (** [os.tmpdir()] *)
  os_tmpdir : str
}.

(** The source-type tag. *)
Inductive InputType : Type := file | stdin | command.

Inductive HostCall : Type :=
| Execute (cmd : str) (args : list str)
| ReadStdin
| WriteFile (path content : str).

(** One log for the calls to the host and the calls of the core, in the order
    they are made. *)
Inductive Step : Type :=
| Core (e : Event)
| OnHost (c : HostCall).

Record Machine : Type := {
  exitStatus : option Z;
  steps : list Step
}.

Definition Sys (A : Type) : Type := Machine -> Outcome A * Machine.

Definition sbind {A B} (m : Sys A) (k : A -> Sys B) : Sys B :=
  fun s =>
    match m s with
    | (Returned a, s') => k a s'
    | (Thrown e, s') => (Thrown e, s')
    end.

(** A computation of the core, run where the machine is: its exit code is the
    machine's and its calls go to the end of the log. *)
Definition liftEff {A} (m : Eff A) : Sys A :=
  fun s =>
    let (outcome, p') := m {| exitCode := exitStatus s; trace := [] |} in
    (outcome,
     {| exitStatus := exitCode p'; steps := steps s ++ map Core (trace p') |}).

Definition hostCall {A} (c : HostCall) (answer : Outcome A) : Sys A :=
  fun s => (answer, {| exitStatus := exitStatus s; steps := steps s ++ [OnHost c] |}).

(** Modelled from the spec: [utils.execute] of [utils.js] runs the command
    synchronously and gives its full output; a subprocess that cannot be
    spawned or exits non-zero is a failure. *)
Definition execute `{Host} (cmd : str) (args : list str) : Sys str :=
  hostCall (Execute cmd args) (executed cmd args).

(** Modelled from the spec: [utils.readStdin] of [utils.js] reads standard
    input to its end. *)
Definition readStdin `{Host} : Sys str := hostCall ReadStdin stdinText.

(** Modelled from the spec: [utils.writeFile] of [utils.js]. *)
Definition writeFile `{Host} (path content : str) : Sys unit :=
  hostCall (WriteFile path content) (written path content).

Definition runGitDiff `{Host} (gitArgsArr ignore : list str) : Sys str :=
  let gitDiffArgs := generateGitDiffArgs gitArgsArr ignore in
  execute (lit "git") gitDiffArgs.

Definition getInput `{Runtime} `{Host} (inputType : InputType)
    (inputArgs ignore : list str) : Sys str :=
  match inputType with
  | file =>
      match inputArgs with
      | path :: _ => liftEff (readFile path)
      | [] => fun s => (readUndefined, s)
      end
  | stdin => readStdin
  | command => runGitDiff inputArgs ignore
  end.

(** [open(filePath, { wait: false })] is the [open] of the publisher; the
    viewer is not waited for. *)
Definition preview `{Runtime} `{Host} (content format : str) : Sys unit :=
  let filename := lit "diff." ++ format in
  let filePath := path_resolve [os_tmpdir; filename] in
  sbind (writeFile filePath content) (fun _ => liftEff (open filePath)).

Definition boot : Machine := {| exitStatus := None; steps := [] |}.

(** ** More on the argument vector and on templates *)

(** The tokens that the builder itself puts before the caller's arguments. *)
Definition builderTokens : list str :=
  [lit "diff"; lit "--no-color"; lit "-M"; lit "-C"; lit "HEAD"].

(** The path of an exclusion entry. *)
Definition excludedPath (entry : str) : str := skipn (length (lit ":(exclude)")) entry.

(** The last [n] entries of a vector. *)
Definition lastn {A} (n : nat) (l : list A) : list A := skipn (length l - n) l.

(** No rule has two holes. *)
Definition atMostOnce (pieces : list Piece) : bool :=
  forallb (fun k => Nat.leb (count_occ Nat.eq_dec (holes pieces) k) 1) (holes pieces).

(** A host for the examples: [git] prints a one-line diff, any other command
    fails. *)
Definition demoHost : Host := {|
  executed := fun cmd _ =>
    if str_eqb cmd (lit "git") then Returned (lit "diff --git a/x b/x")
    else Thrown (Error (lit "spawn failed"));
  stdinText := Returned (lit "diff --git a/y b/y");
  written := fun _ _ => Returned tt;
  readUndefined := Thrown (TypeError (lit "path must be a string"));
  os_tmpdir := lit "/tmp"
|}.

(** A template with the title and the diff markers only. *)
Definition partialPieces : list Piece :=
  [ Text (lit "<title>"); Hole 0; Text (lit "</title><body>"); Hole 8;
    Text (lit "</body>") ].

Definition partialTemplate : str :=
  raw (replacements [] (demoConfig (lit "template.html") html_format) None [] [])
    partialPieces.

Definition partialWorld : Runtime := demoRuntime partialTemplate (Returned demoAnswer).

(** A template without any marker. *)
Definition plainWorld : Runtime :=
  demoRuntime (lit "<html><body>static</body></html>") (Returned demoAnswer).

(** A service whose [id] is an object with an own [toString] property, one
    whose [error] is such an object, and a machine without a working
    clipboard. *)
Definition unprintable : JSON := JObj [(lit "toString", JNum (lit "1"))].

Definition objectIdWorld : Runtime :=
  demoRuntime demoTemplate (Returned (JObj [(lit "id", unprintable)])).

Definition objectErrorWorld : Runtime :=
  demoRuntime demoTemplate (Returned (JObj [(lit "error", unprintable)])).

Definition noClipboardWorld : Runtime :=
  demoRuntimeWith demoTemplate (Returned demoAnswer)
    (fun _ => Thrown (Error (lit "Couldn't find the `xsel` binary"))).

(** A service that answers [null], and one that cannot be reached. *)
Definition nullWorld : Runtime := demoRuntime demoTemplate (Returned JNull).

Definition offlineWorld : Runtime :=
  demoRuntime demoTemplate (Thrown (Error (lit "getaddrinfo ENOTFOUND diffy.org"))).

(** * Properties *)

(** ** Strings *)

Lemma str_eqb_eq (a b : str) : str_eqb a b = true <-> a = b.
Proof.
  revert b; induction a as [|x a IH]; intros [|y b]; simpl; split;
    try congruence; try reflexivity.
  - rewrite andb_true_iff, Ascii.eqb_eq, IH. intros [-> ->]; reflexivity.
  - intros E; injection E as -> ->.
    rewrite andb_true_iff, Ascii.eqb_eq, IH; split; reflexivity.
Qed.

Lemma str_eqb_refl (a : str) : str_eqb a a = true.
Proof. apply str_eqb_eq; reflexivity. Qed.

Lemma startsWith_app (p t : str) : startsWith p (p ++ t) = true.
Proof.
  induction p as [|x p IH]; simpl; [reflexivity|].
  rewrite Ascii.eqb_refl, IH; reflexivity.
Qed.

Lemma startsWith_inv (p s : str) :
  startsWith p s = true -> exists t, s = p ++ t.
Proof.
  revert s; induction p as [|x p IH]; intros s H; simpl in *.
  - exists s; reflexivity.
  - destruct s as [|y s]; [discriminate|].
    apply andb_true_iff in H as [Hxy Hp].
    apply Ascii.eqb_eq in Hxy as ->.
    destruct (IH _ Hp) as [t ->]. exists t; reflexivity.
Qed.

Lemma includes_In (l : list str) (x : str) : includes l x = true <-> In x l.
Proof.
  unfold includes; rewrite existsb_exists; split.
  - intros [y [Hy E]]. apply str_eqb_eq in E as ->; exact Hy.
  - intros H; exists x; split; [exact H | apply str_eqb_refl].
Qed.

(** ** Git argument builder *)

Lemma occurrences_app (x : str) (l1 l2 : list str) :
  occurrences x (l1 ++ l2) = occurrences x l1 + occurrences x l2.
Proof. unfold occurrences; rewrite filter_app, length_app; reflexivity. Qed.

Lemma occurrences_pos (x : str) (l : list str) :
  includes l x = true -> 1 <= occurrences x l.
Proof.
  unfold includes, occurrences; induction l as [|y l IH]; simpl; [discriminate|].
  destruct (str_eqb x y); simpl; [lia | exact IH].
Qed.

Lemma occurrences_zero (x : str) (l : list str) :
  includes l x = false -> occurrences x l = 0.
Proof.
  unfold includes, occurrences; induction l as [|y l IH]; simpl; [reflexivity|].
  destruct (str_eqb x y); simpl; [discriminate | exact IH].
Qed.

(** An exclusion entry starts with a colon: it is none of the fixed tokens. *)
Lemma exclude_not_token (x : str) (ignore : list str) :
  hd_error x <> Some ":"%char -> includes (map exclude ignore) x = false.
Proof.
  intros Hx; unfold includes.
  induction ignore as [|p ignore IH]; simpl; [reflexivity|].
  rewrite IH, orb_false_r.
  destruct x as [|c x]; [reflexivity|]. simpl in *.
  destruct (Ascii.eqb c ":") eqn:E; [|reflexivity].
  apply Ascii.eqb_eq in E; subst c. contradiction Hx; reflexivity.
Qed.

(** The built vector, part by part. *)
Lemma generateGitDiffArgs_parts (gitArgsArr ignore : list str) :
  generateGitDiffArgs gitArgsArr ignore =
  [lit "diff"]
  ++ (if includes gitArgsArr (lit "--no-color") then [] else [lit "--no-color"])
  ++ (match gitArgsArr with [] => defaultArgs | _ :: _ => [] end)
  ++ gitArgsArr
  ++ (match ignore with
      | [] => []
      | _ :: _ =>
          (if includes gitArgsArr (lit "--") then [] else [lit "--"])
          ++ map exclude ignore
      end).
Proof.
  unfold generateGitDiffArgs.
  destruct (includes gitArgsArr (lit "--no-color"));
    destruct gitArgsArr as [|a args]; destruct ignore as [|p ignore];
    cbn [negb length Nat.eqb Nat.ltb Nat.leb];
    try destruct (includes (a :: args) (lit "--"));
    cbn [negb app]; rewrite <- ?app_assoc, ?app_nil_r; reflexivity.
Qed.

Lemma occurrences_exclude (x : str) (ignore : list str) :
  hd_error x <> Some ":"%char -> occurrences x (map exclude ignore) = 0.
Proof. intros Hx; apply occurrences_zero, exclude_not_token, Hx. Qed.

(** C3: with no caller arguments the vector is [diff --no-color -M -C HEAD]
    (followed by the exclusions, if any); with a non-empty caller list the
    vector is [diff], [--no-color] unless the caller has it, the caller's
    arguments and the exclusions, with no default appended: a default token
    found in the vector is one of the caller's own arguments. *)
Theorem defaults_only_without_caller_args (ignore : list str) :
  generateGitDiffArgs [] ignore =
    [lit "diff"; lit "--no-color"; lit "-M"; lit "-C"; lit "HEAD"]
    ++ (match ignore with [] => [] | _ :: _ => lit "--" :: map exclude ignore end)
  /\ forall gitArgsArr : list str, gitArgsArr <> [] ->
       generateGitDiffArgs gitArgsArr ignore =
         [lit "diff"]
         ++ (if includes gitArgsArr (lit "--no-color") then [] else [lit "--no-color"])
         ++ gitArgsArr
         ++ (match ignore with
             | [] => []
             | _ :: _ =>
                 (if includes gitArgsArr (lit "--") then [] else [lit "--"])
                 ++ map exclude ignore
             end)
       /\ (forall d, In d defaultArgs ->
             In d (generateGitDiffArgs gitArgsArr ignore) -> In d gitArgsArr).
Proof.
  split.
  - rewrite generateGitDiffArgs_parts. destruct ignore; reflexivity.
  - intros gitArgsArr Hne.
    assert (E : generateGitDiffArgs gitArgsArr ignore =
         [lit "diff"]
         ++ (if includes gitArgsArr (lit "--no-color") then [] else [lit "--no-color"])
         ++ gitArgsArr
         ++ (match ignore with
             | [] => []
             | _ :: _ =>
                 (if includes gitArgsArr (lit "--") then [] else [lit "--"])
                 ++ map exclude ignore
             end)).
    { rewrite generateGitDiffArgs_parts.
      destruct gitArgsArr as [|a args]; [contradiction Hne; reflexivity|].
      reflexivity. }
    split; [exact E|].
    intros d Hd Hin. rewrite E in Hin.
    assert (Hcolon : hd_error d <> Some ":"%char).
    { destruct Hd as [<-|[<-|[<-|[]]]]; discriminate. }
    assert (Hfixed : d <> lit "diff" /\ d <> lit "--no-color" /\ d <> lit "--").
    { destruct Hd as [<-|[<-|[<-|[]]]]; repeat split; discriminate. }
    destruct Hfixed as (Hdiff & Hnc & Hsep).
    apply in_app_or in Hin as [[E1|[]]|Hin]; [congruence|].
    apply in_app_or in Hin as [Hin|Hin].
    { destruct (includes gitArgsArr (lit "--no-color")); [destruct Hin|].
      destruct Hin as [E1|[]]; congruence. }
    apply in_app_or in Hin as [Hin|Hin]; [exact Hin|].
    exfalso. destruct ignore as [|p ignore]; [destruct Hin|].
    apply in_app_or in Hin as [Hin|Hin].
    { destruct (includes gitArgsArr (lit "--")); [destruct Hin|].
      destruct Hin as [E1|[]]; congruence. }
    apply includes_In in Hin.
    rewrite (exclude_not_token d (p :: ignore) Hcolon) in Hin; discriminate.
Qed.

(** C3, at an instance: a caller list without [--no-color] and without
    defaults. *)
Lemma defaults_only_without_caller_args_witness :
  [lit "--cached"] <> [] /\
  generateGitDiffArgs [lit "--cached"] [lit "dist"] =
    [lit "diff"; lit "--no-color"; lit "--cached"; lit "--"; lit ":(exclude)dist"].
Proof.
  split; [discriminate|].
  destruct (defaults_only_without_caller_args [lit "dist"]) as [_ H].
  destruct (H [lit "--cached"]) as [E _]; [discriminate|].
  rewrite E; reflexivity.
Defined.

(** C4, as the code has it: when the caller's list contains [--no-color], the
    vector has as many [--no-color] as the caller's list, the builder adding
    none; it is exactly one when the caller wrote it once. *)
Theorem no_color_as_often_as_caller (gitArgsArr ignore : list str) :
  In (lit "--no-color") gitArgsArr ->
  occurrences (lit "--no-color") (generateGitDiffArgs gitArgsArr ignore)
  = occurrences (lit "--no-color") gitArgsArr
  /\ 1 <= occurrences (lit "--no-color") (generateGitDiffArgs gitArgsArr ignore).
Proof.
  intros Hin. apply includes_In in Hin.
  assert (E : occurrences (lit "--no-color") (generateGitDiffArgs gitArgsArr ignore)
              = occurrences (lit "--no-color") gitArgsArr).
  { rewrite generateGitDiffArgs_parts, !occurrences_app, Hin.
    destruct gitArgsArr as [|a args]; [discriminate Hin|].
    destruct ignore as [|p ignore].
    - change (occurrences (lit "--no-color") [lit "diff"]) with 0.
      change (occurrences (lit "--no-color") []) with 0. lia.
    - rewrite occurrences_app, occurrences_exclude by discriminate.
      destruct (includes (a :: args) (lit "--"));
        change (occurrences (lit "--no-color") [lit "diff"]) with 0;
        change (occurrences (lit "--no-color") [lit "--"]) with 0;
        change (occurrences (lit "--no-color") []) with 0; lia. }
  split; [exact E|]. rewrite E. apply occurrences_pos, Hin.
Qed.

Lemma no_color_as_often_as_caller_witness :
  In (lit "--no-color") [lit "--stat"; lit "--no-color"] /\
  occurrences (lit "--no-color")
    (generateGitDiffArgs [lit "--stat"; lit "--no-color"] [lit "dist"]) = 1.
Proof.
  split; [right; left; reflexivity|].
  destruct (no_color_as_often_as_caller [lit "--stat"; lit "--no-color"] [lit "dist"]) as [E _].
  - right; left; reflexivity.
  - rewrite E; reflexivity.
Defined.

(** C4 as stated fails: a caller list with [--no-color] twice gives a vector
    with two occurrences. *)
Lemma no_color_exactly_once_counterexample :
  In (lit "--no-color") [lit "--no-color"; lit "--no-color"] /\
  occurrences (lit "--no-color")
    (generateGitDiffArgs [lit "--no-color"; lit "--no-color"] []) <> 1.
Proof. split; [left; reflexivity | vm_compute; discriminate]. Qed.

(** C5, as the code has it: with a non-empty exclusion list, the vector ends
    with one [:(exclude)<path>] entry per exclusion path in input order,
    after a [--] that the builder adds only when the caller's list has none;
    so [--] occurs once when the caller's list has at most one, and as often
    as in the caller's list otherwise. *)
Theorem separator_and_exclusions (gitArgsArr ignore : list str) :
  ignore <> [] ->
  generateGitDiffArgs gitArgsArr ignore =
    generateGitDiffArgs gitArgsArr []
    ++ (if includes gitArgsArr (lit "--") then [] else [lit "--"])
    ++ map exclude ignore
  /\ occurrences (lit "--") (generateGitDiffArgs gitArgsArr ignore)
     = Nat.max 1 (occurrences (lit "--") gitArgsArr)
  /\ (occurrences (lit "--") gitArgsArr <= 1 ->
      occurrences (lit "--") (generateGitDiffArgs gitArgsArr ignore) = 1).
Proof.
  intros Hne. destruct ignore as [|p ignore]; [contradiction Hne; reflexivity|].
  assert (E : generateGitDiffArgs gitArgsArr (p :: ignore) =
    generateGitDiffArgs gitArgsArr []
    ++ (if includes gitArgsArr (lit "--") then [] else [lit "--"])
    ++ map exclude (p :: ignore)).
  { rewrite !generateGitDiffArgs_parts, app_nil_r, <- !app_assoc. reflexivity. }
  assert (C : occurrences (lit "--") (generateGitDiffArgs gitArgsArr (p :: ignore))
     = Nat.max 1 (occurrences (lit "--") gitArgsArr)).
  { rewrite generateGitDiffArgs_parts, !occurrences_app.
    rewrite occurrences_exclude by discriminate.
    change (occurrences (lit "--") [lit "diff"]) with 0.
    assert (D : occurrences (lit "--")
                  (if includes gitArgsArr (lit "--no-color") then [] else [lit "--no-color"]) = 0)
      by (destruct (includes gitArgsArr (lit "--no-color")); reflexivity).
    assert (F : occurrences (lit "--")
                  (match gitArgsArr with [] => defaultArgs | _ :: _ => [] end) = 0)
      by (destruct gitArgsArr; reflexivity).
    rewrite D, F.
    destruct (includes gitArgsArr (lit "--")) eqn:I.
    - apply occurrences_pos in I.
      change (occurrences (lit "--") []) with 0. lia.
    - apply occurrences_zero in I. rewrite I.
      change (occurrences (lit "--") [lit "--"]) with 1. lia. }
  split; [exact E|]. split; [exact C|]. intros Hle. rewrite C. lia.
Qed.

Lemma separator_and_exclusions_witness :
  [lit "a.lock"; lit "dist"] <> [] /\
  generateGitDiffArgs [lit "HEAD~1"] [lit "a.lock"; lit "dist"] =
    [lit "diff"; lit "--no-color"; lit "HEAD~1"; lit "--";
     lit ":(exclude)a.lock"; lit ":(exclude)dist"].
Proof.
  split; [discriminate|].
  destruct (separator_and_exclusions [lit "HEAD~1"] [lit "a.lock"; lit "dist"]) as [E _];
    [discriminate|].
  rewrite E; reflexivity.
Defined.

(** C5 as stated fails: the caller's own [--] tokens are kept, so a caller
    list with two of them gives a vector with two. *)
Lemma separator_exactly_once_counterexample :
  [lit "dist"] <> [] /\
  occurrences (lit "--")
    (generateGitDiffArgs [lit "--"; lit "src"; lit "--"] [lit "dist"]) <> 1.
Proof. split; [discriminate | vm_compute; discriminate]. Qed.

(** ** Output formatter *)

Section OutputFormatter.

Context {R : Runtime}.

(** The guard of [getOutput]: a configured template that is not on disk ends
    the call at once. *)
Lemma getOutput_guard (options : Diff2HtmlConfig) (config : Configuration)
    (input : str) (p : Process) :
  truthy (htmlWrapperTemplate config) = true ->
  existsSync (htmlWrapperTemplate config) = false ->
  getOutput options config input p =
    (Thrown (Error (lit "Template ('" ++ htmlWrapperTemplate config ++ lit "') not found!")),
     {| exitCode := Some 4%Z; trace := trace p |}).
Proof.
  intros Ht He. unfold getOutput. rewrite Ht, He. reflexivity.
Qed.

(** C2: when the template path is set and no file is there, [getOutput] sets
    the exit code to 4 and throws the template-not-found error; the calls
    made so far are unchanged, so neither the parser nor the renderer nor a
    file read has run, and nothing is returned. *)
Theorem missing_template_fails_before_parsing (options : Diff2HtmlConfig)
    (config : Configuration) (input : str) (p : Process) :
  htmlWrapperTemplate config <> [] ->
  existsSync (htmlWrapperTemplate config) = false ->
  exists p',
    getOutput options config input p =
      (Thrown (Error (lit "Template ('" ++ htmlWrapperTemplate config ++ lit "') not found!")),
       p')
    /\ exitCode p' = Some 4%Z
    /\ trace p' = trace p.
Proof.
  intros Hset He. eexists. rewrite getOutput_guard; [repeat split | | exact He].
  destruct (htmlWrapperTemplate config); [contradiction Hset|]; reflexivity.
Qed.

(** C10: with the JSON format the guard is the same: a configured template
    that is missing sets exit code 4 and throws, although with the template
    on disk the JSON path returns the serialized model after the parse alone,
    without reading any file. *)
Theorem json_format_still_checks_template (options : Diff2HtmlConfig)
    (config : Configuration) (input : str) (p : Process) :
  formatType config = json_format ->
  htmlWrapperTemplate config <> [] ->
  (existsSync (htmlWrapperTemplate config) = false ->
   getOutput options config input p =
     (Thrown (Error (lit "Template ('" ++ htmlWrapperTemplate config ++ lit "') not found!")),
      {| exitCode := Some 4%Z; trace := trace p |}))
  /\ (existsSync (htmlWrapperTemplate config) = true ->
      getOutput options config input p =
        (Returned (stringifyDiff (parse input options)),
         {| exitCode := exitCode p; trace := trace p ++ [EvParse input] |})).
Proof.
  intros Hjson Hset.
  assert (Ht : truthy (htmlWrapperTemplate config) = true)
    by (destruct (htmlWrapperTemplate config); [contradiction Hset|]; reflexivity).
  split; intros He.
  - apply getOutput_guard; assumption.
  - unfold getOutput. rewrite Ht, He, Hjson. reflexivity.
Qed.

End OutputFormatter.

Lemma missing_template_fails_before_parsing_witness :
  htmlWrapperTemplate (demoConfig (lit "missing.html") html_format) <> [] /\
  @existsSync demoWorld (lit "missing.html") = false /\
  exists p',
    @getOutput demoWorld (Some DARK) (demoConfig (lit "missing.html") html_format)
      (lit "diff --git a/x b/x") fresh =
      (Thrown (Error (lit "Template ('missing.html') not found!")), p')
    /\ exitCode p' = Some 4%Z
    /\ trace p' = [].
Proof.
  split; [discriminate|]. split; [reflexivity|].
  apply (@missing_template_fails_before_parsing demoWorld (Some DARK)
           (demoConfig (lit "missing.html") html_format)
           (lit "diff --git a/x b/x") fresh);
    [discriminate | reflexivity].
Defined.

Lemma json_format_still_checks_template_witness :
  formatType (demoConfig (lit "missing.html") json_format) = json_format /\
  htmlWrapperTemplate (demoConfig (lit "missing.html") json_format) <> [] /\
  @existsSync demoWorld (lit "missing.html") = false /\
  @getOutput demoWorld None (demoConfig (lit "missing.html") json_format)
    (lit "diff --git a/x b/x") fresh =
    (Thrown (Error (lit "Template ('missing.html') not found!")),
     {| exitCode := Some 4%Z; trace := [] |}).
Proof.
  split; [reflexivity|]. split; [discriminate|]. split; [reflexivity|].
  refine (proj1 (@json_format_still_checks_template demoWorld None
                   (demoConfig (lit "missing.html") json_format)
                   (lit "diff --git a/x b/x") fresh eq_refl _) eq_refl).
  discriminate.
Defined.

(** ** Remote publisher *)

Section RemotePublisher.

Context {R : Runtime}.

(** The call up to the answer of the service. *)
Lemma put_answer (url diff : str) (body : JSON) (p : Process) :
  remoteResponse url diff = Returned body ->
  put url diff p =
    (Returned body, {| exitCode := exitCode p; trace := trace p ++ [EvPut url diff] |}).
Proof. intros H. unfold put, bind, emit. rewrite H. reflexivity. Qed.

(** C6, as the code has it: when the answer has an [id] field whose value
    [i] converts to the string [id] (a string converts to itself), and, in
    the clipboard mode, the clipboard takes the link, [postToDiffy] returns
    [https://diffy.org/diff/] followed by [id], the same link in the three
    output modes (the mode only decides whether the link is also opened or
    copied); the answer [{id: "abc123"}] gives
    [https://diffy.org/diff/abc123]. *)
Theorem postToDiffy_returns_link (diff : str) (diffyOutput : DiffyType)
    (p : Process) (props : list (str * JSON)) (i : JSON) (id : str) :
  remoteResponse (lit "https://diffy.org/api/diff/") diff = Returned (JObj props) ->
  lookup (lit "id") props = Some i ->
  ToString i = Returned id ->
  (diffyOutput = pbcopy ->
   clipboardWrite (lit "https://diffy.org/diff/" ++ id) = Returned tt) ->
  postToDiffy diff diffyOutput p =
    (Returned (lit "https://diffy.org/diff/" ++ id),
     {| exitCode := exitCode p;
        trace :=
          trace p
          ++ [EvPut (lit "https://diffy.org/api/diff/") diff;
              EvPrint (lit "Link powered by https://diffy.org");
              EvPrint (lit "https://diffy.org/diff/" ++ id)]
          ++ match diffyOutput with
             | browser => [EvOpen (lit "https://diffy.org/diff/" ++ id)]
             | pbcopy => [EvClipboard (lit "https://diffy.org/diff/" ++ id)]
             | print => []
             end |})
  /\ (i = JStr (lit "abc123") ->
      fst (postToDiffy diff diffyOutput p) = Returned (lit "https://diffy.org/diff/abc123")).
Proof.
  intros Hbody Hid Hstr Hclip.
  assert (E : postToDiffy diff diffyOutput p =
    (Returned (lit "https://diffy.org/diff/" ++ id),
     {| exitCode := exitCode p;
        trace :=
          trace p
          ++ [EvPut (lit "https://diffy.org/api/diff/") diff;
              EvPrint (lit "Link powered by https://diffy.org");
              EvPrint (lit "https://diffy.org/diff/" ++ id)]
          ++ match diffyOutput with
             | browser => [EvOpen (lit "https://diffy.org/diff/" ++ id)]
             | pbcopy => [EvClipboard (lit "https://diffy.org/diff/" ++ id)]
             | print => []
             end |})).
  { unfold postToDiffy. unfold bind at 1. rewrite (put_answer _ _ _ _ Hbody).
    unfold bind at 1. unfold isCreateDiffResponse, field, getProperty. rewrite Hid.
    cbn [negb templateString]. unfold bind at 1, liftOutcome at 1. rewrite Hstr.
    destruct diffyOutput.
    - cbn. rewrite <- !app_assoc. reflexivity.
    - unfold clipboardy_writeSync, log_print, bind, emit, liftOutcome, ret.
      cbn [exitCode trace]. rewrite (Hclip eq_refl). cbn [exitCode trace].
      rewrite <- !app_assoc. reflexivity.
    - cbn. rewrite <- !app_assoc. reflexivity. }
  split; [exact E|].
  intros ->. injection Hstr as <-. rewrite E. reflexivity.
Qed.

(** C7, as the code has it.  An answer other than [null] without an [id]
    field makes [postToDiffy] throw: with an [error] field whose value
    converts to a string (a string converts to itself), an error with that
    message; with an [error] field whose value does not convert, what the
    conversion throws; with neither field, an error whose message contains
    the serialized body.  The answer [null] makes the probe for [id] throw a
    type error. *)
Theorem postToDiffy_failure_messages (diff : str) (diffyOutput : DiffyType)
    (p : Process) (body : JSON) :
  remoteResponse (lit "https://diffy.org/api/diff/") diff = Returned body ->
  (getProperty body (lit "id") = Returned None ->
     (forall e message,
        getProperty body (lit "error") = Returned (Some e) ->
        ToString e = Returned message ->
        fst (postToDiffy diff diffyOutput p) = Thrown (Error message))
     /\ (forall e failure,
           getProperty body (lit "error") = Returned (Some e) ->
           ToString e = Thrown failure ->
           fst (postToDiffy diff diffyOutput p) = Thrown failure)
     /\ (getProperty body (lit "error") = Returned None ->
         exists message,
           fst (postToDiffy diff diffyOutput p) = Thrown (Error message)
           /\ occurs (stringifyBody body) message))
  /\ (body = JNull ->
      fst (postToDiffy diff diffyOutput p)
      = Thrown (TypeError (lit "Cannot read properties of null (reading 'id')"))).
Proof.
  intros Hbody. split.
  - intros Hid. split; [|split].
    + intros e message He Hstr. unfold postToDiffy. unfold bind at 1.
      rewrite (put_answer _ _ _ _ Hbody).
      unfold bind, isCreateDiffResponse, isApiError, field, liftOutcome.
      rewrite Hid. cbn [negb]. rewrite He. cbn [templateString]. rewrite Hstr.
      reflexivity.
    + intros e failure He Hstr. unfold postToDiffy. unfold bind at 1.
      rewrite (put_answer _ _ _ _ Hbody).
      unfold bind, isCreateDiffResponse, isApiError, field, liftOutcome.
      rewrite Hid. cbn [negb]. rewrite He. cbn [templateString]. rewrite Hstr.
      reflexivity.
    + intros He. eexists. split.
      * unfold postToDiffy. unfold bind at 1.
        rewrite (put_answer _ _ _ _ Hbody).
        unfold bind, isCreateDiffResponse, isApiError, field. rewrite Hid. cbn [negb].
        rewrite He. reflexivity.
      * exists (lit "Could not find 'id' of created diff in the response json."
                ++ newline ++ lit "Body:" ++ newline ++ newline), [].
        rewrite app_nil_r, <- !app_assoc. reflexivity.
  - intros ->. unfold postToDiffy. unfold bind at 1.
    rewrite (put_answer _ _ _ _ Hbody). reflexivity.
Qed.

End RemotePublisher.

Lemma postToDiffy_returns_link_witness :
  @remoteResponse demoWorld (lit "https://diffy.org/api/diff/") (lit "+a") =
    Returned (JObj [(lit "id", JStr (lit "abc123"))]) /\
  lookup (lit "id") [(lit "id", JStr (lit "abc123"))] = Some (JStr (lit "abc123")) /\
  ToString (JStr (lit "abc123")) = Returned (lit "abc123") /\
  @clipboardWrite demoWorld (lit "https://diffy.org/diff/" ++ lit "abc123") = Returned tt /\
  fst (@postToDiffy demoWorld (lit "+a") pbcopy fresh) =
    Returned (lit "https://diffy.org/diff/abc123").
Proof.
  split; [reflexivity|]. split; [reflexivity|]. split; [reflexivity|].
  split; [reflexivity|].
  exact (proj2 (@postToDiffy_returns_link demoWorld (lit "+a") pbcopy fresh
                  [(lit "id", JStr (lit "abc123"))] (JStr (lit "abc123")) (lit "abc123")
                  eq_refl eq_refl eq_refl (fun _ => eq_refl)) eq_refl).
Defined.

(** C6 as stated fails.  An [id] that is an object with an own [toString]
    property cannot be written into the link: the call throws a type error
    in place of returning.  And in the clipboard mode a clipboard that fails
    makes the call throw after the link is printed, where the two other
    modes return it. *)
Lemma postToDiffy_link_counterexample :
  (@remoteResponse objectIdWorld (lit "https://diffy.org/api/diff/") (lit "+a")
     = Returned (JObj [(lit "id", unprintable)])
   /\ lookup (lit "id") [(lit "id", unprintable)] = Some unprintable
   /\ forall mode,
        fst (@postToDiffy objectIdWorld (lit "+a") mode fresh) = Thrown cannotConvert)
  /\ (@remoteResponse noClipboardWorld (lit "https://diffy.org/api/diff/") (lit "+a")
        = Returned (JObj [(lit "id", JStr (lit "abc123"))])
      /\ fst (@postToDiffy noClipboardWorld (lit "+a") print fresh)
         = Returned (lit "https://diffy.org/diff/abc123")
      /\ @postToDiffy noClipboardWorld (lit "+a") pbcopy fresh
         = (Thrown (Error (lit "Couldn't find the `xsel` binary")),
            {| exitCode := None;
               trace := [EvPut (lit "https://diffy.org/api/diff/") (lit "+a");
                         EvPrint (lit "Link powered by https://diffy.org");
                         EvPrint (lit "https://diffy.org/diff/abc123");
                         EvClipboard (lit "https://diffy.org/diff/abc123")] |})).
Proof.
  split; [split; [reflexivity | split; [reflexivity | intros []; reflexivity]]|].
  split; [reflexivity|]. split; reflexivity.
Qed.

Lemma postToDiffy_failure_messages_witness :
  @remoteResponse demoRefusingWorld (lit "https://diffy.org/api/diff/") (lit "+a") =
    Returned demoRefusal /\
  getProperty demoRefusal (lit "id") = Returned None /\
  getProperty demoRefusal (lit "error") = Returned (Some (JStr (lit "too large"))) /\
  ToString (JStr (lit "too large")) = Returned (lit "too large") /\
  fst (@postToDiffy demoRefusingWorld (lit "+a") browser fresh) =
    Thrown (Error (lit "too large")).
Proof.
  split; [reflexivity|]. split; [reflexivity|]. split; [reflexivity|].
  split; [reflexivity|].
  exact (proj1 (proj1 (@postToDiffy_failure_messages demoRefusingWorld (lit "+a") browser
                         fresh demoRefusal eq_refl) eq_refl)
           (JStr (lit "too large")) (lit "too large") eq_refl eq_refl).
Defined.

(** C7 as stated fails.  The answer [{error: {toString: 1}}] has no [id] and
    has an [error] field, and the call throws the type error of the
    conversion: no error built from the field. *)
Lemma postToDiffy_error_message_counterexample :
  @remoteResponse objectErrorWorld (lit "https://diffy.org/api/diff/") (lit "+a")
    = Returned (JObj [(lit "error", unprintable)])
  /\ getProperty (JObj [(lit "error", unprintable)]) (lit "id") = Returned None
  /\ getProperty (JObj [(lit "error", unprintable)]) (lit "error")
     = Returned (Some unprintable)
  /\ fst (@postToDiffy objectErrorWorld (lit "+a") browser fresh) = Thrown cannotConvert
  /\ forall message,
       fst (@postToDiffy objectErrorWorld (lit "+a") browser fresh)
       <> Thrown (Error message).
Proof.
  split; [reflexivity|]. split; [reflexivity|]. split; [reflexivity|].
  split; [reflexivity|]. intros message. discriminate.
Qed.

(** ** Template compositor: the table *)

Section TemplateCompositor.

Context {R : Runtime}.

(** With the three files readable, [prepareHTML] reads them in order and
    returns the substituted template. *)
Lemma prepareHTML_reads (diffHTMLContent : str) (config : Configuration)
    (cs : option ColorSchemeType) (p : Process) (template css js : str) :
  fileContent (htmlWrapperTemplate config) = Some template ->
  fileContent cssFilePath = Some css ->
  fileContent jsUiFilePath = Some js ->
  prepareHTML diffHTMLContent config cs p =
    (Returned (substitute (replacements diffHTMLContent config cs css js) template),
     {| exitCode := exitCode p;
        trace := trace p ++ [EvReadFile (htmlWrapperTemplate config);
                             EvReadFile cssFilePath; EvReadFile jsUiFilePath] |}).
Proof.
  intros Ht Hc Hj. unfold prepareHTML, readFile, bind, emit, ret.
  rewrite Ht. cbn [trace exitCode]. rewrite Hc. cbn [trace exitCode]. rewrite Hj.
  cbn [trace exitCode]. rewrite <- !app_assoc. reflexivity.
Qed.

(** C8: an unset colour scheme selects the [auto] stylesheet links and the
    [auto] base style, the fragments of an explicit [auto]; [prepareHTML]
    then does what it does for [auto], and returns a document whenever its
    three files are readable. *)
Theorem unset_color_scheme_is_auto (diffHTMLContent : str) (config : Configuration)
    (p : Process) :
  gitHubTheme None = autoGitHubTheme
  /\ baseStyle None = autoBaseStyle
  /\ gitHubTheme (Some AUTO) = autoGitHubTheme
  /\ baseStyle (Some AUTO) = autoBaseStyle
  /\ (forall css js,
        replacementFor (replacements diffHTMLContent config None css js)
          (lit "<!--diff2html-css-->")
        = Some (autoBaseStyle ++ newline ++ autoGitHubTheme ++ newline
                ++ lit "<style>" ++ newline ++ css ++ newline ++ lit "</style>"))
  /\ prepareHTML diffHTMLContent config None p
     = prepareHTML diffHTMLContent config (Some AUTO) p
  /\ (forall template css js,
        fileContent (htmlWrapperTemplate config) = Some template ->
        fileContent cssFilePath = Some css ->
        fileContent jsUiFilePath = Some js ->
        fst (prepareHTML diffHTMLContent config None p)
        = Returned (substitute
                      (replacements diffHTMLContent config (Some AUTO) css js) template)).
Proof.
  repeat split; try reflexivity.
  intros template css js Ht Hc Hj.
  rewrite (prepareHTML_reads _ _ _ _ _ _ _ Ht Hc Hj). reflexivity.
Qed.

End TemplateCompositor.

Lemma unset_color_scheme_is_auto_witness :
  @fileContent demoWorld (lit "template.html") = Some demoTemplate /\
  @fileContent demoWorld (@cssFilePath demoWorld) = Some (lit ".d2h-wrapper{}") /\
  @fileContent demoWorld (@jsUiFilePath demoWorld) = Some (lit "var diff2htmlUi;") /\
  fst (@prepareHTML demoWorld (lit "<div/>") (demoConfig (lit "template.html") html_format)
         None fresh)
  = Returned (substitute
                (replacements (lit "<div/>") (demoConfig (lit "template.html") html_format)
                   (Some AUTO) (lit ".d2h-wrapper{}") (lit "var diff2htmlUi;"))
                demoTemplate).
Proof.
  split; [reflexivity|]. split; [reflexivity|]. split; [reflexivity|].
  destruct (@unset_color_scheme_is_auto demoWorld (lit "<div/>")
              (demoConfig (lit "template.html") html_format) fresh)
    as (_ & _ & _ & _ & _ & _ & H).
  exact (H demoTemplate (lit ".d2h-wrapper{}") (lit "var diff2htmlUi;")
           eq_refl eq_refl eq_refl).
Defined.

(** ** Exact replacement *)

Lemma occurs_app_l (m X Y : str) : occurs m X -> occurs m (X ++ Y).
Proof.
  intros (pre & post & ->). exists pre, (post ++ Y).
  rewrite <- !app_assoc; reflexivity.
Qed.

Lemma occurs_app_r (m X Y : str) : occurs m Y -> occurs m (X ++ Y).
Proof.
  intros (pre & post & ->). exists (X ++ pre), post.
  rewrite <- !app_assoc; reflexivity.
Qed.

Lemma occursb_occurs (m d : str) : occursb m d = true <-> occurs m d.
Proof.
  split.
  - induction d as [|c d IH]; simpl; intros H.
    + rewrite orb_false_r in H. apply startsWith_inv in H as [t ->].
      exists [], t; reflexivity.
    + apply orb_true_iff in H as [H|H].
      * apply startsWith_inv in H as [t ->]. exists [], t; reflexivity.
      * apply (occurs_app_r m [c] d), IH, H.
  - intros (pre & post & ->). induction pre as [|c pre IH].
    + simpl app. destruct (m ++ post) eqn:E; simpl;
        rewrite <- E, startsWith_app; reflexivity.
    + simpl. rewrite IH. apply orb_true_r.
Qed.

Lemma skipn_length_app (m Y : str) : skipn (length m) (m ++ Y) = Y.
Proof. induction m as [|c m IH]; simpl; [reflexivity | exact IH]. Qed.

(** A document without the marker comes back as it is. *)
Lemma replaceExactly_absent (d m v : str) :
  ~ occurs m d -> replaceExactly d m v = d.
Proof.
  induction d as [|c d IH]; intros Hno.
  - simpl. destruct (startsWith m []) eqn:E; [|reflexivity].
    apply startsWith_inv in E as [t E]. contradiction Hno. exists [], t; exact E.
  - simpl. destruct (startsWith m (c :: d)) eqn:E.
    + apply startsWith_inv in E as [t E]. contradiction Hno. exists [], t; exact E.
    + f_equal. apply IH. intros Hocc. apply Hno, (occurs_app_r m [c] d), Hocc.
Qed.

(** The marker at [X] is the one replaced when none starts earlier. *)
Lemma replaceExactly_first (X Y m v : str) :
  (forall X1 X2, X = X1 ++ X2 -> X2 <> [] -> startsWith m (X2 ++ m ++ Y) = false) ->
  replaceExactly (X ++ m ++ Y) m v = X ++ v ++ Y.
Proof.
  induction X as [|c X IH]; intros Hfirst.
  - simpl app.
    destruct (m ++ Y) eqn:E; simpl; rewrite <- E, startsWith_app, skipn_length_app;
      reflexivity.
  - assert (Hc : startsWith m (c :: X ++ m ++ Y) = false)
      by (apply (Hfirst [] (c :: X) eq_refl); discriminate).
    simpl app. simpl replaceExactly. rewrite Hc.
    f_equal. apply IH. intros X1 X2 -> Hne.
    apply (Hfirst (c :: X1) X2 eq_refl Hne).
Qed.

(** ** Markers that cannot overlap *)

(** Two beginnings of one text start alike. *)
Lemma compat_common (x y a b : str) : x ++ a = y ++ b -> compat x y = true.
Proof.
  unfold compat. revert y; induction x as [|c x IH]; intros y H.
  - reflexivity.
  - destruct y as [|c' y]; [apply orb_true_r|].
    simpl in H. injection H as -> H. simpl. rewrite Ascii.eqb_refl. simpl.
    apply IH, H.
Qed.

Lemma tails_suffix (l s : str) : s <> [] -> In s (tails (l ++ s)).
Proof.
  intros Hs. induction l as [|c l IH]; simpl.
  - destruct s; [contradiction Hs; reflexivity | left; reflexivity].
  - right; exact IH.
Qed.

Lemma clash_suffix (l s b Y V : str) :
  s <> [] -> s ++ Y = b ++ V -> clash (l ++ s) b = true.
Proof.
  intros Hs E. unfold clash. apply existsb_exists. exists s; split.
  - apply tails_suffix, Hs.
  - apply (compat_common _ _ _ _ E).
Qed.

(** An occurrence of [m] in a text around another marker [m'] lies before or
    after [m'] when the two cannot overlap. *)
Lemma sep_split (m m' X Y : str) :
  sep m m' = true -> occurs m (X ++ m' ++ Y) -> occurs m X \/ occurs m Y.
Proof.
  unfold sep. rewrite andb_true_iff, !negb_true_iff. intros [Hmm' Hm'm].
  intros (U & V & E).
  apply app_eq_app in E as [l [[EX E]|[EU E]]].
  - (* the occurrence starts inside X *)
    apply app_eq_app in E as [l2 [[Em E]|[El E]]].
    + destruct l2 as [|c l2].
      * left. exists U, []. rewrite app_nil_r in Em. rewrite EX, Em, app_nil_r.
        reflexivity.
      * rewrite Em, (clash_suffix l (c :: l2) m' V Y) in Hmm';
          [discriminate | discriminate | symmetry; exact E].
    + left. exists U, l2. rewrite EX, El. reflexivity.
  - (* the occurrence starts at or after the beginning of m' *)
    apply app_eq_app in E as [l2 [[Em E]|[El E]]].
    + destruct l2 as [|c l2].
      * right. exists [], V. simpl in E. rewrite <- E. reflexivity.
      * rewrite Em, (clash_suffix l (c :: l2) m Y V) in Hm'm;
          [discriminate | discriminate | symmetry; exact E].
    + right. exists l2, V. exact E.
Qed.

(** A marker that cannot overlap itself and starts inside [X], before its
    occurrence at the end of [X], occurs in [X]. *)
Lemma selfsep_inside (m X1 X2 Y : str) :
  selfsep m = true -> X2 <> [] ->
  startsWith m (X2 ++ m ++ Y) = true -> occurs m (X1 ++ X2).
Proof.
  unfold selfsep. rewrite negb_true_iff. intros Hself Hne H.
  apply startsWith_inv in H as [Z E].
  apply app_eq_app in E as [l [[EX E]|[Em E]]].
  - apply occurs_app_r. exists [], l. exact EX.
  - destruct l as [|c l].
    + rewrite app_nil_r in Em. apply occurs_app_r. exists [], [].
      rewrite Em, app_nil_r; reflexivity.
    + exfalso. destruct X2 as [|c2 X2]; [contradiction Hne; reflexivity|].
      assert (C : existsb (fun s => compat s m) (tails (tl m)) = true).
      { apply existsb_exists. exists (c :: l). split.
        - rewrite Em. simpl tl. apply tails_suffix. discriminate.
        - apply (compat_common _ _ Z Y). symmetry; exact E. }
      rewrite C in Hself; discriminate.
Qed.

Lemma sep_sym (a b : str) : sep a b = sep b a.
Proof. unfold sep. apply andb_comm. Qed.

Lemma separated_selfsep (ms : list str) (m : str) :
  separated ms = true -> In m ms -> selfsep m = true.
Proof.
  induction ms as [|a ms IH]; simpl; [intros _ []|].
  rewrite !andb_true_iff. intros [[Ha _] Hrest] [<-|Hin]; [exact Ha | apply IH; assumption].
Qed.

Lemma separated_sep_lt (ms : list str) (i j : nat) :
  separated ms = true -> i < j -> j < length ms ->
  sep (nth i ms []) (nth j ms []) = true.
Proof.
  revert i j; induction ms as [|a ms IH]; intros i j Hs Hij Hj; simpl in Hj; [lia|].
  simpl in Hs. rewrite !andb_true_iff in Hs. destruct Hs as [[_ Ha] Hrest].
  destruct j as [|j]; [lia|]. destruct i as [|i]; simpl.
  - rewrite forallb_forall in Ha. apply Ha, nth_In. lia.
  - apply IH; [exact Hrest | lia | lia].
Qed.

Lemma separated_sep (ms : list str) (i j : nat) :
  separated ms = true -> i <> j -> i < length ms -> j < length ms ->
  sep (nth i ms []) (nth j ms []) = true.
Proof.
  intros Hs Hne Hi Hj. destruct (Nat.lt_ge_cases i j) as [Hlt|Hge].
  - apply separated_sep_lt; assumption.
  - rewrite sep_sym. apply separated_sep_lt; [exact Hs | lia | exact Hi].
Qed.

(** ** Templates as text around placeholders *)

Lemma marker_nth (table : list Replacement) (k : nat) :
  marker table k = nth k (map searchValue table) [].
Proof. unfold marker. symmetry. apply (map_nth searchValue table noRule k). Qed.

Lemma render_app (table : list Replacement) (i : nat) (P Q : list Piece) :
  render table i (P ++ Q) = render table i P ++ render table i Q.
Proof.
  induction P as [|[s|k] P IH]; simpl; [reflexivity | |];
    rewrite IH, app_assoc; reflexivity.
Qed.

(** A template without a hole for rule [i] is not changed by that rule's
    turn. *)
Lemma render_skip (table : list Replacement) (i : nat) (P : list Piece) :
  ~ In i (holes P) -> render table (S i) P = render table i P.
Proof.
  induction P as [|[s|k] P IH]; simpl; intros Hno; [reflexivity | |].
  - rewrite IH by exact Hno. reflexivity.
  - rewrite IH by tauto.
    assert (Hk : k <> i) by tauto.
    destruct (Nat.ltb_spec k (S i)), (Nat.ltb_spec k i); try reflexivity; lia.
Qed.

Lemma holes_split (i : nat) (pieces : list Piece) :
  In i (holes pieces) ->
  exists P Q, pieces = P ++ Hole i :: Q /\ holes pieces = holes P ++ i :: holes Q.
Proof.
  induction pieces as [|[s|k] pieces IH]; simpl; intros Hin; [destruct Hin | |].
  - destruct (IH Hin) as (P & Q & -> & E).
    exists (Text s :: P), Q. split; [reflexivity | exact E].
  - destruct Hin as [->|Hin].
    + exists [], pieces. split; reflexivity.
    + destruct (IH Hin) as (P & Q & -> & E).
      exists (Hole k :: P), Q. split; [reflexivity | simpl; rewrite E; reflexivity].
Qed.

(** An occurrence of [m] in the document after [j] rules is still there
    after [n], when no marker still to be replaced can overlap [m]: later
    rules replace around it. *)
Lemma occurs_render_later (table : list Replacement) (m : str) (j n : nat)
    (P : list Piece) :
  j <= n ->
  (forall k, In k (holes P) -> j <= k -> k < n -> sep m (marker table k) = true) ->
  forall X, occurs m (X ++ render table j P) -> occurs m (X ++ render table n P).
Proof.
  intros Hjn. induction P as [|[s|k] P IH]; intros Hsep X Hocc.
  - exact Hocc.
  - simpl in *. rewrite app_assoc in *. apply IH; [|exact Hocc].
    intros k Hk; apply Hsep, Hk.
  - assert (Hsep' : forall k0, In k0 (holes P) -> j <= k0 -> k0 < n ->
                      sep m (marker table k0) = true)
      by (intros k0 Hk0; apply Hsep; right; exact Hk0).
    simpl in *.
    destruct (Nat.ltb_spec k j) as [Hkj|Hkj].
    + destruct (Nat.ltb_spec k n); [|lia].
      rewrite app_assoc in *. apply IH; assumption.
    + destruct (Nat.ltb_spec k n) as [Hkn|Hkn].
      * apply sep_split in Hocc; [|apply Hsep; [left; reflexivity | exact Hkj | exact Hkn]].
        destruct Hocc as [Hocc|Hocc]; [apply occurs_app_l, Hocc|].
        apply occurs_app_r, occurs_app_r. apply (IH Hsep' []), Hocc.
      * rewrite app_assoc in *. apply IH; assumption.
Qed.

Lemma skipn_cons_nth {A} (d : A) (l : list A) (i : nat) :
  i < length l -> skipn i l = nth i l d :: skipn (S i) l.
Proof.
  revert i; induction l as [|a l IH]; intros i Hi; simpl in Hi; [lia|].
  destruct i as [|i]; [reflexivity|]. simpl. apply IH. lia.
Qed.

Lemma substitute_cons (r : Replacement) (rest : list Replacement) (d : str) :
  substitute (r :: rest) d
  = substitute rest (replaceExactly d (searchValue r) (replaceValue r)).
Proof. reflexivity. Qed.

Section Substitution.

Variable table : list Replacement.
Variable pieces : list Piece.

Hypothesis Hsep : separated (map searchValue table) = true.
Hypothesis Hnodup : NoDup (holes pieces).
Hypothesis Hclean :
  forall k, k < length table -> ~ occurs (marker table k) (filled table pieces).

(** No marker of a rule from [i] on, other than [i]'s own, overlaps the
    marker of rule [i]. *)
Lemma later_markers_sep (i : nat) (P : list Piece) :
  i < length table ->
  (forall k, In k (holes P) -> In k (holes pieces)) -> ~ In i (holes P) ->
  forall k, In k (holes P) -> i <= k -> k < length table ->
    sep (marker table i) (marker table k) = true.
Proof.
  intros Hi Hsub Hno k Hk _ Hkn. rewrite !marker_nth.
  apply separated_sep; [exact Hsep | | |]; rewrite ?length_map; try assumption.
  intros ->; contradiction.
Qed.

(** The turn of rule [i]: the document after [i] rules becomes the document
    after [i + 1]. *)
Lemma replaceExactly_step (i : nat) :
  i < length table ->
  replaceExactly (render table i pieces) (marker table i) (value table i)
  = render table (S i) pieces.
Proof.
  intros Hi. destruct (in_dec Nat.eq_dec i (holes pieces)) as [Hin|Hno].
  - destruct (holes_split i pieces Hin) as (P & Q & EP & EH).
    assert (HnoPQ : ~ In i (holes P ++ holes Q))
      by (apply NoDup_remove_2; rewrite <- EH; exact Hnodup).
    assert (HnoP : ~ In i (holes P)) by (intros H; apply HnoPQ, in_or_app; left; exact H).
    assert (HnoQ : ~ In i (holes Q)) by (intros H; apply HnoPQ, in_or_app; right; exact H).
    assert (HsubP : forall k, In k (holes P) -> In k (holes pieces))
      by (intros k Hk; rewrite EH; apply in_or_app; left; exact Hk).
    rewrite EP, !render_app. simpl render.
    rewrite Nat.ltb_irrefl, (proj2 (Nat.ltb_lt i (S i)) (Nat.lt_succ_diag_r i)).
    rewrite (render_skip table i P HnoP), (render_skip table i Q HnoQ).
    apply replaceExactly_first. intros X1 X2 EX Hne.
    destruct (startsWith (marker table i) (X2 ++ marker table i ++ render table i Q))
      eqn:Hstart; [exfalso | reflexivity].
    apply (selfsep_inside _ X1 _ _
             (separated_selfsep _ _ Hsep
                (eq_ind_r (fun m => In m _) (nth_In _ _ ltac:(rewrite length_map; exact Hi))
                   (marker_nth table i))) Hne) in Hstart.
    rewrite <- EX in Hstart.
    apply (occurs_render_later table (marker table i) i (length table) P (Nat.lt_le_incl _ _ Hi)
             (later_markers_sep i P Hi HsubP HnoP) []) in Hstart.
    apply (Hclean i Hi). unfold filled. rewrite EP, render_app.
    apply occurs_app_l, Hstart.
  - rewrite (render_skip table i pieces Hno).
    apply replaceExactly_absent. intros Hocc.
    apply (occurs_render_later table (marker table i) i (length table) pieces (Nat.lt_le_incl _ _ Hi)
             (later_markers_sep i pieces Hi (fun k H => H) Hno) []) in Hocc.
    apply (Hclean i Hi), Hocc.
Qed.

Lemma substitute_from (k i : nat) :
  i + k = length table ->
  substitute (skipn i table) (render table i pieces) = filled table pieces.
Proof.
  revert i; induction k as [|k IH]; intros i Hik.
  - rewrite Nat.add_0_r in Hik. subst i. rewrite skipn_all. reflexivity.
  - rewrite (skipn_cons_nth noRule table i) by lia.
    rewrite substitute_cons. fold (marker table i) (value table i).
    rewrite replaceExactly_step by lia.
    apply IH. lia.
Qed.

(** Rule after rule, the first-occurrence replacements put every value in the
    place of its marker. *)
Lemma substitute_filled : substitute table (raw table pieces) = filled table pieces.
Proof. apply (substitute_from (length table) 0). reflexivity. Qed.

End Substitution.

Lemma eachOnce_In (n : nat) (pieces : list Piece) (k : nat) :
  eachOnce n pieces = true -> k < n -> In k (holes pieces).
Proof.
  unfold eachOnce. rewrite andb_true_iff, forallb_forall. intros [Hcount _] Hk.
  apply (count_occ_In Nat.eq_dec).
  rewrite (proj1 (Nat.eqb_eq _ _) (Hcount k (proj2 (in_seq n 0 k) (conj (Nat.le_0_l k) Hk)))).
  apply Nat.lt_0_1.
Qed.

Lemma eachOnce_NoDup (n : nat) (pieces : list Piece) :
  eachOnce n pieces = true -> NoDup (holes pieces).
Proof.
  unfold eachOnce. rewrite andb_true_iff, !forallb_forall. intros [Hcount Hrange].
  apply (NoDup_count_occ Nat.eq_dec). intros k.
  destruct (in_dec Nat.eq_dec k (holes pieces)) as [Hin|Hno].
  - apply Hrange, Nat.ltb_lt in Hin.
    rewrite (proj1 (Nat.eqb_eq _ _) (Hcount k (proj2 (in_seq n 0 k) (conj (Nat.le_0_l k) Hin)))).
    apply Nat.le_refl.
  - rewrite (proj1 (count_occ_not_In Nat.eq_dec _ _) Hno). apply Nat.le_0_l.
Qed.

Lemma cleanOf_spec (ms : list str) (d : str) :
  cleanOf ms d = true <-> forall m, In m ms -> ~ occurs m d.
Proof.
  unfold cleanOf. rewrite forallb_forall. split; intros H m Hm.
  - rewrite <- occursb_occurs. specialize (H m Hm).
    destruct (occursb m d); [discriminate H | discriminate].
  - specialize (H m Hm). rewrite <- occursb_occurs in H.
    destruct (occursb m d); [contradiction H; reflexivity | reflexivity].
Qed.

(** A rule with a hole has its value in the filled template. *)
Lemma value_in_filled (table : list Replacement) (pieces : list Piece) (k : nat) :
  In k (holes pieces) -> k < length table ->
  occurs (value table k) (filled table pieces).
Proof.
  intros Hin Hk. destruct (holes_split k pieces Hin) as (P & Q & -> & _).
  unfold filled. rewrite render_app. simpl render.
  rewrite (proj2 (Nat.ltb_lt _ _) Hk).
  exists (render table (length table) P), (render table (length table) Q). reflexivity.
Qed.

Lemma replacements_markers (diffHTMLContent : str) (config : Configuration)
    (cs : option ColorSchemeType) (css js : str) :
  map searchValue (replacements diffHTMLContent config cs css js) = markers.
Proof. reflexivity. Qed.

Lemma markers_separated : separated markers = true.
Proof. vm_compute. reflexivity. Qed.

(** *** Every template has its pieces

    A template in which every marker of the table occurs can be cut into
    text and one hole per marker. *)

Lemma insert_hole (table : list Replacement) (j : nat) (P : list Piece) :
  (forall k, In k (holes P) -> sep (marker table j) (marker table k) = true) ->
  forall X, occurs (marker table j) (X ++ raw table P) ->
  exists P',
    raw table P' = X ++ raw table P
    /\ forall x, count_occ Nat.eq_dec (holes P') x
                 = count_occ Nat.eq_dec (holes P) x + (if Nat.eq_dec x j then 1 else 0).
Proof.
  unfold raw. induction P as [|[s|k] P IH]; intros Hsep X Hocc.
  - simpl in Hocc. rewrite app_nil_r in Hocc. destruct Hocc as (pre & post & ->).
    exists [Text pre; Hole j; Text post]. split.
    + simpl. rewrite !app_nil_r. reflexivity.
    + intros x. simpl.
      destruct (Nat.eq_dec j x), (Nat.eq_dec x j); try reflexivity; congruence.
  - simpl in Hocc. rewrite app_assoc in Hocc.
    destruct (IH Hsep (X ++ s) Hocc) as (P' & ER & EC).
    exists P'. split; [|exact EC].
    rewrite ER. simpl. rewrite app_assoc. reflexivity.
  - simpl in Hocc.
    assert (Hsep' : forall k0, In k0 (holes P) ->
                      sep (marker table j) (marker table k0) = true)
      by (intros k0 Hk0; apply Hsep; right; exact Hk0).
    apply sep_split in Hocc; [|apply Hsep; left; reflexivity].
    destruct Hocc as [(pre & post & ->)|Hocc].
    + exists (Text pre :: Hole j :: Text post :: Hole k :: P). split.
      * simpl. rewrite <- !app_assoc. reflexivity.
      * intros x. simpl.
        destruct (Nat.eq_dec j x), (Nat.eq_dec x j), (Nat.eq_dec k x);
          try congruence; lia.
    + destruct (IH Hsep' [] Hocc) as (P' & ER & EC).
      exists (Text X :: Hole k :: P'). split.
      * simpl. rewrite ER. reflexivity.
      * intros x. simpl. rewrite EC. destruct (Nat.eq_dec k x); lia.
Qed.

Lemma template_pieces_upto (table : list Replacement) (d : str) (j : nat) :
  separated (map searchValue table) = true ->
  (forall k, k < length table -> occurs (marker table k) d) ->
  j <= length table ->
  exists pieces,
    raw table pieces = d
    /\ forall x, count_occ Nat.eq_dec (holes pieces) x = if Nat.ltb x j then 1 else 0.
Proof.
  intros Hsep Hall. induction j as [|j IH]; intros Hj.
  - exists [Text d]. split; [unfold raw; simpl; apply app_nil_r | reflexivity].
  - destruct IH as (pieces & ER & EC); [lia|].
    destruct (insert_hole table j pieces) with (X := @nil ascii) as (P' & ER' & EC').
    + intros k Hk. apply (count_occ_In Nat.eq_dec) in Hk. rewrite EC in Hk.
      destruct (Nat.ltb_spec k j) as [Hkj|Hkj]; [|lia].
      rewrite !marker_nth. apply separated_sep; rewrite ?length_map; [exact Hsep | | |]; lia.
    + simpl. rewrite ER. apply Hall. lia.
    + exists P'. split; [rewrite ER'; exact ER|].
      intros x. rewrite EC', EC.
      destruct (Nat.ltb_spec x j), (Nat.ltb_spec x (S j)), (Nat.eq_dec x j); lia.
Qed.

Lemma template_pieces (table : list Replacement) (d : str) :
  separated (map searchValue table) = true ->
  (forall k, k < length table -> occurs (marker table k) d) ->
  exists pieces, raw table pieces = d /\ eachOnce (length table) pieces = true.
Proof.
  intros Hsep Hall.
  destruct (template_pieces_upto table d (length table) Hsep Hall (Nat.le_refl _))
    as (pieces & ER & EC).
  exists pieces. split; [exact ER|].
  unfold eachOnce. rewrite andb_true_iff, !forallb_forall. split.
  - intros k Hk. apply in_seq in Hk. rewrite EC.
    destruct (Nat.ltb_spec k (length table)); [reflexivity | lia].
  - intros k Hk. apply (count_occ_In Nat.eq_dec) in Hk. rewrite EC in Hk.
    destruct (Nat.ltb_spec k (length table)); [reflexivity | lia].
Qed.

(** In particular a template that contains the ten markers of
    [prepareHTML]. *)
Lemma prepareHTML_template_pieces (diffHTMLContent : str) (config : Configuration)
    (cs : option ColorSchemeType) (css js template : str) :
  (forall m, In m markers -> occurs m template) ->
  exists pieces,
    raw (replacements diffHTMLContent config cs css js) pieces = template
    /\ eachOnce 10 pieces = true.
Proof.
  intros Hall.
  apply (template_pieces (replacements diffHTMLContent config cs css js) template).
  - rewrite replacements_markers. exact markers_separated.
  - intros k Hk. rewrite marker_nth, replacements_markers. apply Hall, nth_In. exact Hk.
Qed.

(** ** Template compositor: the substitution *)

(** C1, as the code has it: take a template with each of the ten markers
    exactly once, as the holes of [pieces], and a configuration such that the
    template with every replacement value written in the place of its marker
    contains no marker literal.  Then [prepareHTML] returns exactly that
    document: it contains none of the marker literals and every replacement
    value of the table verbatim, whatever characters the values hold. *)
Theorem prepareHTML_fills_each_marker {R : Runtime} (diffHTMLContent : str)
    (config : Configuration) (cs : option ColorSchemeType) (p : Process)
    (pieces : list Piece) (css js : str) :
  eachOnce 10 pieces = true ->
  cleanOf markers (filled (replacements diffHTMLContent config cs css js) pieces) = true ->
  fileContent (htmlWrapperTemplate config)
    = Some (raw (replacements diffHTMLContent config cs css js) pieces) ->
  fileContent cssFilePath = Some css ->
  fileContent jsUiFilePath = Some js ->
  exists out,
    fst (prepareHTML diffHTMLContent config cs p) = Returned out
    /\ out = filled (replacements diffHTMLContent config cs css js) pieces
    /\ (forall m, In m markers -> ~ occurs m out)
    /\ (forall r, In r (replacements diffHTMLContent config cs css js) ->
          occurs (replaceValue r) out).
Proof.
  intros Honce Hclean Ht Hc Hj.
  exists (filled (replacements diffHTMLContent config cs css js) pieces).
  split; [|split; [reflexivity|split]].
  - rewrite (prepareHTML_reads _ _ _ _ _ _ _ Ht Hc Hj). cbn [fst]. f_equal.
    apply substitute_filled.
    + rewrite replacements_markers. exact markers_separated.
    + apply (eachOnce_NoDup 10), Honce.
    + intros k Hk. rewrite marker_nth, replacements_markers.
      apply (proj1 (cleanOf_spec _ _) Hclean), nth_In. exact Hk.
  - apply cleanOf_spec, Hclean.
  - intros r Hr. destruct (In_nth _ _ noRule Hr) as (k & Hk & <-).
    apply (value_in_filled _ pieces k); [|exact Hk].
    apply (eachOnce_In 10); [exact Honce | exact Hk].
Qed.

Lemma prepareHTML_fills_each_marker_witness :
  eachOnce 10 demoPieces = true /\
  cleanOf markers
    (filled (replacements (lit "<div/>") (demoConfig (lit "template.html") html_format)
               None (lit ".d2h-wrapper{}") (lit "var diff2htmlUi;")) demoPieces) = true /\
  @fileContent demoWorld (lit "template.html") = Some demoTemplate /\
  exists out,
    fst (@prepareHTML demoWorld (lit "<div/>") (demoConfig (lit "template.html") html_format)
           None fresh) = Returned out
    /\ occurs (lit "<title>$& diff</title>") out
    /\ occurs (lit "<h1>Changes $1</h1><p>fix: $$ and $`</p><div/>") out.
Proof.
  split; [reflexivity|]. split; [vm_compute; reflexivity|]. split; [reflexivity|].
  destruct (@prepareHTML_fills_each_marker demoWorld (lit "<div/>")
              (demoConfig (lit "template.html") html_format) None fresh demoPieces
              (lit ".d2h-wrapper{}") (lit "var diff2htmlUi;"))
    as (out & Hout & Eout & _ & _);
    [reflexivity | vm_compute; reflexivity | reflexivity | reflexivity | reflexivity |].
  exists out. split; [exact Hout|].
  rewrite Eout. split; apply occursb_occurs; vm_compute; reflexivity.
Defined.

(** C1 as stated fails.  With the text of the header marker inside the page
    title, the header rule replaces that text instead of the template's own
    marker: the marker is still in the document and the title is not.  With
    the title marker twice in the template, the second is still in the
    document. *)
Lemma markers_all_replaced_counterexample :
  (forall m, In m markers -> occurs m demoTemplate)
  /\ (exists out,
        fst (@prepareHTML demoWorld (lit "<div/>") hostileConfig None fresh) = Returned out
        /\ occurs (lit "<!--diff2html-header-->") out
        /\ ~ occurs (pageTitle hostileConfig) out)
  /\ (forall m, In m markers -> occurs m doubledTemplate)
  /\ (exists out,
        fst (@prepareHTML doubledWorld (lit "<div/>")
               (demoConfig (lit "template.html") html_format) None fresh) = Returned out
        /\ occurs (lit "<!--diff2html-title-->") out).
Proof.
  assert (Hall : forall d, forallb (fun m => occursb m d) markers = true ->
                   forall m, In m markers -> occurs m d).
  { intros d H m Hm. rewrite forallb_forall in H. apply occursb_occurs, H, Hm. }
  split; [apply Hall; vm_compute; reflexivity|].
  split.
  - eexists. split; [vm_compute; reflexivity|]. split.
    + apply occursb_occurs. vm_compute. reflexivity.
    + rewrite <- occursb_occurs. vm_compute. discriminate.
  - split; [apply Hall; vm_compute; reflexivity|].
    eexists. split; [vm_compute; reflexivity|].
    apply occursb_occurs. vm_compute. reflexivity.
Qed.

(** * Further properties *)

(** ** Git argument builder: the whole vector *)

Lemma generateGitDiffArgs_front (gitArgsArr ignore : list str) :
  generateGitDiffArgs gitArgsArr ignore =
  generateGitDiffArgs gitArgsArr []
  ++ (match ignore with
      | [] => []
      | _ :: _ =>
          (if includes gitArgsArr (lit "--") then [] else [lit "--"])
          ++ map exclude ignore
      end).
Proof. rewrite !generateGitDiffArgs_parts, app_nil_r, <- !app_assoc. reflexivity. Qed.

Lemma no_color_present (gitArgsArr ignore : list str) :
  In (lit "--no-color") (generateGitDiffArgs gitArgsArr ignore).
Proof.
  rewrite generateGitDiffArgs_parts. apply in_or_app; right.
  destruct (includes gitArgsArr (lit "--no-color")) eqn:I.
  - apply includes_In in I. simpl app.
    apply in_or_app; right. apply in_or_app; left. exact I.
  - apply in_or_app; left. left; reflexivity.
Qed.

(** The vector starts with [diff] and always has [--no-color]; when the
    caller's list lacks it, the builder's [--no-color] is the second entry,
    before every caller argument. *)
Theorem vector_starts_with_diff (gitArgsArr ignore : list str) :
  hd_error (generateGitDiffArgs gitArgsArr ignore) = Some (lit "diff")
  /\ In (lit "--no-color") (generateGitDiffArgs gitArgsArr ignore)
  /\ (~ In (lit "--no-color") gitArgsArr ->
      exists mid rest,
        generateGitDiffArgs gitArgsArr ignore
        = lit "diff" :: lit "--no-color" :: mid ++ gitArgsArr ++ rest).
Proof.
  split; [rewrite generateGitDiffArgs_parts; reflexivity|].
  split; [apply no_color_present|].
  intros Hno.
  assert (I : includes gitArgsArr (lit "--no-color") = false).
  { destruct (includes gitArgsArr (lit "--no-color")) eqn:I; [|reflexivity].
    apply includes_In in I. contradiction. }
  rewrite generateGitDiffArgs_parts, I. cbn [app].
  eexists. eexists. reflexivity.
Qed.

Lemma vector_starts_with_diff_witness :
  ~ In (lit "--no-color") [lit "--color"; lit "HEAD~2"] /\
  exists mid rest,
    generateGitDiffArgs [lit "--color"; lit "HEAD~2"] [lit "dist"]
    = lit "diff" :: lit "--no-color" :: mid ++ [lit "--color"; lit "HEAD~2"] ++ rest.
Proof.
  assert (Hno : ~ In (lit "--no-color") [lit "--color"; lit "HEAD~2"])
    by (simpl; intuition discriminate).
  split; [exact Hno|].
  exact (proj2 (proj2 (vector_starts_with_diff [lit "--color"; lit "HEAD~2"] [lit "dist"]))
           Hno).
Defined.

(** No caller argument is dropped, changed or reordered: the caller's list
    stands in the vector as it is, after tokens of the builder only and before
    the separator and the exclusion entries only; without exclusion paths
    nothing follows it. *)
Theorem caller_arguments_kept (gitArgsArr ignore : list str) :
  exists pre post,
    generateGitDiffArgs gitArgsArr ignore = pre ++ gitArgsArr ++ post
    /\ (forall x, In x pre -> In x builderTokens)
    /\ (forall x, In x post ->
          x = lit "--" \/ exists path, In path ignore /\ x = exclude path)
    /\ (ignore = [] -> post = []).
Proof.
  exists ([lit "diff"]
          ++ (if includes gitArgsArr (lit "--no-color") then [] else [lit "--no-color"])
          ++ (match gitArgsArr with [] => defaultArgs | _ :: _ => [] end)),
         (match ignore with
          | [] => []
          | _ :: _ =>
              (if includes gitArgsArr (lit "--") then [] else [lit "--"])
              ++ map exclude ignore
          end).
  split; [rewrite generateGitDiffArgs_parts, <- !app_assoc; reflexivity|].
  split; [|split].
  - intros x Hx. unfold builderTokens, defaultArgs in *.
    destruct (includes gitArgsArr (lit "--no-color")), gitArgsArr; simpl in Hx |- *;
      intuition.
  - intros x Hx. destruct ignore as [|p ignore]; [destruct Hx|].
    apply in_app_or in Hx as [Hx|Hx].
    + left. destruct (includes gitArgsArr (lit "--")); [destruct Hx|].
      destruct Hx as [<-|[]]; reflexivity.
    + right. apply in_map_iff in Hx as (path & <- & Hp). exists path; split; [exact Hp|reflexivity].
  - intros ->; reflexivity.
Qed.

Lemma caller_arguments_kept_witness :
  (@nil str) = [] /\
  exists pre post,
    generateGitDiffArgs [lit "main"; lit "--"; lit "src"] []
    = pre ++ [lit "main"; lit "--"; lit "src"] ++ post
    /\ post = [].
Proof.
  split; [reflexivity|].
  destruct (caller_arguments_kept [lit "main"; lit "--"; lit "src"] [])
    as (pre & post & E & _ & _ & Hpost).
  exists pre, post. split; [exact E | exact (Hpost eq_refl)].
Defined.

(** Exclusion paths compose: more paths only append their entries to the
    vector built for the first ones. *)
Theorem exclusions_append (gitArgsArr ignore more : list str) :
  ignore <> [] ->
  generateGitDiffArgs gitArgsArr (ignore ++ more)
  = generateGitDiffArgs gitArgsArr ignore ++ map exclude more.
Proof.
  intros Hne. destruct ignore as [|p ignore]; [contradiction Hne; reflexivity|].
  rewrite (generateGitDiffArgs_front gitArgsArr ((p :: ignore) ++ more)).
  rewrite (generateGitDiffArgs_front gitArgsArr (p :: ignore)).
  simpl app at 2. rewrite map_app, <- !app_assoc. reflexivity.
Qed.

Lemma exclusions_append_witness :
  [lit "dist"] <> [] /\
  generateGitDiffArgs [lit "HEAD"] ([lit "dist"] ++ [lit "yarn.lock"])
  = generateGitDiffArgs [lit "HEAD"] [lit "dist"] ++ [lit ":(exclude)yarn.lock"].
Proof.
  split; [discriminate|].
  apply (exclusions_append [lit "HEAD"] [lit "dist"] [lit "yarn.lock"]). discriminate.
Defined.

Lemma excludedPath_exclude (path : str) : excludedPath (exclude path) = path.
Proof. unfold excludedPath, exclude. apply skipn_length_app. Qed.

(** The exclusion paths can be read back from the vector: its last entries,
    one per path, are the paths behind [:(exclude)], in the order given. *)
Theorem exclusions_recoverable (gitArgsArr ignore : list str) :
  map excludedPath (lastn (length ignore) (generateGitDiffArgs gitArgsArr ignore))
  = ignore.
Proof.
  assert (E : exists front, generateGitDiffArgs gitArgsArr ignore
                            = front ++ map exclude ignore).
  { rewrite generateGitDiffArgs_front. destruct ignore as [|p ignore].
    - exists (generateGitDiffArgs gitArgsArr []). reflexivity.
    - eexists. rewrite app_assoc. reflexivity. }
  destruct E as [front ->]. unfold lastn.
  rewrite length_app, length_map, Nat.add_sub.
  rewrite skipn_app, skipn_all, Nat.sub_diag. simpl.
  rewrite map_map. rewrite <- (map_id ignore) at 2.
  apply map_ext. intros path. apply excludedPath_exclude.
Qed.

(** ** Input resolver and preview writer *)

Section InputAndPreview.

Context {R : Runtime} {H : Host}.

(** Command input is one subprocess and nothing else: [git], with exactly
    the vector that [generateGitDiffArgs] builds from the input arguments and
    the exclusion paths; the text returned, or the failure, is the
    subprocess's, and no file is read.  So the command line starts with
    [diff], has [--no-color], holds the caller's arguments as they are and
    has the entry of every exclusion path. *)
Theorem command_input_runs_git_diff (inputArgs ignore : list str) (s : Machine) :
  getInput command inputArgs ignore s
  = (executed (lit "git") (generateGitDiffArgs inputArgs ignore),
     {| exitStatus := exitStatus s;
        steps := steps s
                 ++ [OnHost (Execute (lit "git") (generateGitDiffArgs inputArgs ignore))] |})
  /\ hd_error (generateGitDiffArgs inputArgs ignore) = Some (lit "diff")
  /\ In (lit "--no-color") (generateGitDiffArgs inputArgs ignore)
  /\ (forall path, In path ignore ->
        In (exclude path) (generateGitDiffArgs inputArgs ignore))
  /\ (exists pre post, generateGitDiffArgs inputArgs ignore = pre ++ inputArgs ++ post).
Proof.
  split; [reflexivity|].
  split; [rewrite generateGitDiffArgs_parts; reflexivity|].
  split; [apply no_color_present|].
  split.
  - intros path Hp. rewrite generateGitDiffArgs_front. apply in_or_app; right.
    destruct ignore as [|p ignore]; [destruct Hp|].
    apply in_or_app; right. apply in_map, Hp.
  - exists ([lit "diff"]
            ++ (if includes inputArgs (lit "--no-color") then [] else [lit "--no-color"])
            ++ (match inputArgs with [] => defaultArgs | _ :: _ => [] end)),
           (match ignore with
            | [] => []
            | _ :: _ =>
                (if includes inputArgs (lit "--") then [] else [lit "--"])
                ++ map exclude ignore
            end).
    rewrite generateGitDiffArgs_parts, <- !app_assoc. reflexivity.
Qed.

(** File input reads the first path and nothing else, and a path without a
    readable file is a read error; standard input is read whatever the
    arguments are.  Neither looks at the exclusion paths or starts a
    subprocess. *)
Theorem file_and_stdin_input (path : str) (inputArgs ignore : list str) (s : Machine) :
  getInput file (path :: inputArgs) ignore s
  = (match fileContent path with
     | Some content => Returned content
     | None => Thrown (ReadError path)
     end,
     {| exitStatus := exitStatus s; steps := steps s ++ [Core (EvReadFile path)] |})
  /\ getInput stdin inputArgs ignore s
     = (stdinText,
        {| exitStatus := exitStatus s; steps := steps s ++ [OnHost ReadStdin] |}).
Proof.
  split; [|reflexivity].
  unfold getInput, liftEff, readFile, bind, emit.
  destruct (fileContent path); reflexivity.
Qed.

(** The preview opens the very file it has written, [diff.<format>] in the
    temporary directory, after the write; when the write fails the failure
    is the result and nothing is opened.  The exit code is not touched. *)
Theorem preview_opens_written_file (content format : str) (s : Machine) :
  (written (path_resolve [os_tmpdir; lit "diff." ++ format]) content = Returned tt ->
   preview content format s
   = (Returned tt,
      {| exitStatus := exitStatus s;
         steps := steps s
                  ++ [OnHost (WriteFile (path_resolve [os_tmpdir; lit "diff." ++ format])
                                content);
                      Core (EvOpen (path_resolve [os_tmpdir; lit "diff." ++ format]))] |}))
  /\ (forall e,
        written (path_resolve [os_tmpdir; lit "diff." ++ format]) content = Thrown e ->
        preview content format s
        = (Thrown e,
           {| exitStatus := exitStatus s;
              steps := steps s
                       ++ [OnHost (WriteFile
                                     (path_resolve [os_tmpdir; lit "diff." ++ format])
                                     content)] |})).
Proof.
  split; [intros Hw | intros e Hw];
    unfold preview, sbind, writeFile, hostCall, liftEff, open, emit; rewrite Hw;
    cbn; rewrite <- ?app_assoc; reflexivity.
Qed.

End InputAndPreview.

Lemma preview_opens_written_file_witness :
  @written demoHost (@path_resolve demoWorld [@os_tmpdir demoHost; lit "diff." ++ lit "html"])
    (lit "<html/>") = Returned tt /\
  @preview demoWorld demoHost (lit "<html/>") (lit "html") boot
  = (Returned tt,
     {| exitStatus := None;
        steps := [OnHost (WriteFile (lit "/tmp/diff.html") (lit "<html/>"));
                  Core (EvOpen (lit "/tmp/diff.html"))] |}).
Proof.
  split; [reflexivity|].
  exact (proj1 (@preview_opens_written_file demoWorld demoHost (lit "<html/>") (lit "html")
                  boot) eq_refl).
Defined.

(** ** Template compositor: partial and marker-free templates, read failures *)

Lemma substitute_absent (table : list Replacement) (d : str) :
  (forall r, In r table -> ~ occurs (searchValue r) d) -> substitute table d = d.
Proof.
  induction table as [|r table IH]; intros Hno; [reflexivity|].
  rewrite substitute_cons, replaceExactly_absent by (apply Hno; left; reflexivity).
  apply IH. intros r' Hr'. apply Hno. right; exact Hr'.
Qed.

Lemma atMostOnce_NoDup (pieces : list Piece) :
  atMostOnce pieces = true -> NoDup (holes pieces).
Proof.
  unfold atMostOnce. rewrite forallb_forall. intros Hcount.
  apply (NoDup_count_occ Nat.eq_dec). intros k.
  destruct (in_dec Nat.eq_dec k (holes pieces)) as [Hin|Hno].
  - apply Nat.leb_le, Hcount, Hin.
  - rewrite (proj1 (count_occ_not_In Nat.eq_dec _ _) Hno). apply Nat.le_0_l.
Qed.

Section TemplateCompositorMore.

Context {R : Runtime}.

(** A template without any of the ten markers comes back as it is, whatever
    the configuration, the colour scheme and the rendered diff are: nothing
    of them reaches the document. *)
Theorem markerless_template_unchanged (diffHTMLContent : str) (config : Configuration)
    (cs : option ColorSchemeType) (p : Process) (template css js : str) :
  cleanOf markers template = true ->
  fileContent (htmlWrapperTemplate config) = Some template ->
  fileContent cssFilePath = Some css ->
  fileContent jsUiFilePath = Some js ->
  fst (prepareHTML diffHTMLContent config cs p) = Returned template.
Proof.
  intros Hclean Ht Hc Hj.
  rewrite (prepareHTML_reads _ _ _ _ _ _ _ Ht Hc Hj). cbn [fst]. f_equal.
  apply substitute_absent. intros r Hr.
  apply (proj1 (cleanOf_spec _ _) Hclean).
  rewrite <- (replacements_markers diffHTMLContent config cs css js).
  apply in_map, Hr.
Qed.

(** A template may leave markers out: with no marker twice, and no marker
    literal in the document that has each value in the place of its marker,
    [prepareHTML] returns that document, the rules of the absent markers
    changing nothing. *)
Theorem prepareHTML_fills_present_markers (diffHTMLContent : str)
    (config : Configuration) (cs : option ColorSchemeType) (p : Process)
    (pieces : list Piece) (css js : str) :
  atMostOnce pieces = true ->
  cleanOf markers (filled (replacements diffHTMLContent config cs css js) pieces) = true ->
  fileContent (htmlWrapperTemplate config)
    = Some (raw (replacements diffHTMLContent config cs css js) pieces) ->
  fileContent cssFilePath = Some css ->
  fileContent jsUiFilePath = Some js ->
  fst (prepareHTML diffHTMLContent config cs p)
  = Returned (filled (replacements diffHTMLContent config cs css js) pieces).
Proof.
  intros Honce Hclean Ht Hc Hj.
  rewrite (prepareHTML_reads _ _ _ _ _ _ _ Ht Hc Hj). cbn [fst]. f_equal.
  apply substitute_filled.
  - rewrite replacements_markers. exact markers_separated.
  - apply atMostOnce_NoDup, Honce.
  - intros k Hk. rewrite marker_nth, replacements_markers.
    apply (proj1 (cleanOf_spec _ _) Hclean), nth_In. exact Hk.
Qed.

(** The three files are read in the order template, style bundle, script
    bundle; the first that cannot be read ends the call with a read error on
    its path, the later ones are not read and nothing is substituted. *)
Theorem prepareHTML_read_failures (diffHTMLContent : str) (config : Configuration)
    (cs : option ColorSchemeType) (p : Process) :
  (fileContent (htmlWrapperTemplate config) = None ->
   prepareHTML diffHTMLContent config cs p
   = (Thrown (ReadError (htmlWrapperTemplate config)),
      {| exitCode := exitCode p;
         trace := trace p ++ [EvReadFile (htmlWrapperTemplate config)] |}))
  /\ (forall template,
        fileContent (htmlWrapperTemplate config) = Some template ->
        fileContent cssFilePath = None ->
        prepareHTML diffHTMLContent config cs p
        = (Thrown (ReadError cssFilePath),
           {| exitCode := exitCode p;
              trace := trace p ++ [EvReadFile (htmlWrapperTemplate config);
                                   EvReadFile cssFilePath] |}))
  /\ (forall template css,
        fileContent (htmlWrapperTemplate config) = Some template ->
        fileContent cssFilePath = Some css ->
        fileContent jsUiFilePath = None ->
        prepareHTML diffHTMLContent config cs p
        = (Thrown (ReadError jsUiFilePath),
           {| exitCode := exitCode p;
              trace := trace p ++ [EvReadFile (htmlWrapperTemplate config);
                                   EvReadFile cssFilePath; EvReadFile jsUiFilePath] |})).
Proof.
  split; [|split].
  - intros Ht. unfold prepareHTML, readFile, bind, emit. rewrite Ht. reflexivity.
  - intros template Ht Hc. unfold prepareHTML, readFile, bind, emit, ret.
    rewrite Ht. cbn [trace exitCode]. rewrite Hc. cbn [trace exitCode].
    rewrite <- !app_assoc. reflexivity.
  - intros template css Ht Hc Hj. unfold prepareHTML, readFile, bind, emit, ret.
    rewrite Ht. cbn [trace exitCode]. rewrite Hc. cbn [trace exitCode]. rewrite Hj.
    cbn [trace exitCode]. rewrite <- !app_assoc. reflexivity.
Qed.

End TemplateCompositorMore.

Lemma markerless_template_unchanged_witness :
  cleanOf markers (lit "<html><body>static</body></html>") = true /\
  @fileContent plainWorld (lit "template.html")
    = Some (lit "<html><body>static</body></html>") /\
  fst (@prepareHTML plainWorld (lit "<div>+1</div>")
         (demoConfig (lit "template.html") html_format) (Some DARK) fresh)
  = Returned (lit "<html><body>static</body></html>").
Proof.
  split; [vm_compute; reflexivity|]. split; [reflexivity|].
  apply (@markerless_template_unchanged plainWorld (lit "<div>+1</div>")
           (demoConfig (lit "template.html") html_format) (Some DARK) fresh
           (lit "<html><body>static</body></html>")
           (lit ".d2h-wrapper{}") (lit "var diff2htmlUi;"));
    [vm_compute; reflexivity | reflexivity | reflexivity | reflexivity].
Defined.

Lemma prepareHTML_fills_present_markers_witness :
  atMostOnce partialPieces = true /\
  @fileContent partialWorld (lit "template.html") = Some partialTemplate /\
  fst (@prepareHTML partialWorld (lit "<div>+1</div>")
         (demoConfig (lit "template.html") html_format) None fresh)
  = Returned (lit "<title>$& diff</title><body><div>+1</div></body>").
Proof.
  split; [reflexivity|]. split; [reflexivity|].
  rewrite (@prepareHTML_fills_present_markers partialWorld (lit "<div>+1</div>")
             (demoConfig (lit "template.html") html_format) None fresh partialPieces
             (lit ".d2h-wrapper{}") (lit "var diff2htmlUi;"));
    [reflexivity | reflexivity | vm_compute; reflexivity | reflexivity | reflexivity
     | reflexivity].
Defined.

Lemma prepareHTML_read_failures_witness :
  @fileContent demoWorld (lit "missing.html") = None /\
  @prepareHTML demoWorld (lit "<div/>") (demoConfig (lit "missing.html") html_format)
    None fresh
  = (Thrown (ReadError (lit "missing.html")),
     {| exitCode := None; trace := [EvReadFile (lit "missing.html")] |}).
Proof.
  split; [reflexivity|].
  exact (proj1 (@prepareHTML_read_failures demoWorld (lit "<div/>")
                  (demoConfig (lit "missing.html") html_format) None fresh) eq_refl).
Defined.

(** ** Template compositor: the toggles *)

Section Toggles.

Context {R : Runtime}.



End Toggles.


(** ** Output formatter: exit code, the HTML path, late failures *)

Section OutputFormatterMore.

Context {R : Runtime}.

Lemma prepareHTML_exitCode (diffHTMLContent : str) (config : Configuration)
    (cs : option ColorSchemeType) (p : Process) :
  exitCode (snd (prepareHTML diffHTMLContent config cs p)) = exitCode p.
Proof.
  unfold prepareHTML, readFile, bind, emit, ret.
  destruct (fileContent (htmlWrapperTemplate config)); cbn; [|reflexivity].
  destruct (fileContent cssFilePath); cbn; [|reflexivity].
  destruct (fileContent jsUiFilePath); reflexivity.
Qed.

(** Whether [getOutput] returns or throws, the exit code afterwards is 4 when
    the template path is set and no file is there, and is what it was in
    every other case, a later read failure included. *)
Theorem getOutput_exit_code (options : Diff2HtmlConfig) (config : Configuration)
    (input : str) (p : Process) :
  exitCode (snd (getOutput options config input p))
  = if truthy (htmlWrapperTemplate config) && negb (existsSync (htmlWrapperTemplate config))
    then Some 4%Z else exitCode p.
Proof.
  unfold getOutput.
  destruct (truthy (htmlWrapperTemplate config)
            && negb (existsSync (htmlWrapperTemplate config))); [reflexivity|].
  destruct (formatType config); [|reflexivity].
  unfold bind, emit. cbn [fst snd].
  rewrite prepareHTML_exitCode. reflexivity.
Qed.

(** The HTML path end to end: past the guard and with the three files
    readable, the result is the template substituted with the table built
    from the rendering of the parsed input and the colour scheme of the
    options; the parser runs first, then the renderer, then the three
    reads. *)
Theorem getOutput_html (options : Diff2HtmlConfig) (config : Configuration)
    (input : str) (p : Process) (template css js : str) :
  truthy (htmlWrapperTemplate config) && negb (existsSync (htmlWrapperTemplate config))
    = false ->
  formatType config = html_format ->
  fileContent (htmlWrapperTemplate config) = Some template ->
  fileContent cssFilePath = Some css ->
  fileContent jsUiFilePath = Some js ->
  getOutput options config input p
  = (Returned
       (substitute
          (replacements (html (parse input options) options) config
             (colorScheme options) css js)
          template),
     {| exitCode := exitCode p;
        trace := trace p ++ [EvParse input; EvRender;
                             EvReadFile (htmlWrapperTemplate config);
                             EvReadFile cssFilePath; EvReadFile jsUiFilePath] |}).
Proof.
  intros Hguard Hfmt Ht Hc Hj. unfold getOutput. rewrite Hguard, Hfmt.
  unfold bind at 1. unfold emit at 1. unfold bind at 1. unfold emit at 1.
  rewrite (prepareHTML_reads _ _ _ _ _ _ _ Ht Hc Hj).
  cbn [exitCode trace]. rewrite <- !app_assoc. reflexivity.
Qed.

(** The guard does not make the template readable: when it lets the call
    through (the path is empty, or something is there) and the template
    cannot be read, the HTML path fails with a read error only after the
    parser and the renderer have run, and the exit code stays as it was. *)
Theorem getOutput_unreadable_template (options : Diff2HtmlConfig)
    (config : Configuration) (input : str) (p : Process) :
  truthy (htmlWrapperTemplate config) && negb (existsSync (htmlWrapperTemplate config))
    = false ->
  formatType config = html_format ->
  fileContent (htmlWrapperTemplate config) = None ->
  getOutput options config input p
  = (Thrown (ReadError (htmlWrapperTemplate config)),
     {| exitCode := exitCode p;
        trace := trace p ++ [EvParse input; EvRender;
                             EvReadFile (htmlWrapperTemplate config)] |}).
Proof.
  intros Hguard Hfmt Ht. unfold getOutput. rewrite Hguard, Hfmt.
  unfold prepareHTML, readFile, bind, emit. cbn [exitCode trace]. rewrite Ht.
  cbn [exitCode trace]. rewrite <- ?app_assoc. reflexivity.
Qed.

End OutputFormatterMore.

Lemma getOutput_html_witness :
  truthy (lit "template.html") && negb (@existsSync partialWorld (lit "template.html"))
    = false /\
  @fileContent partialWorld (lit "template.html") = Some partialTemplate /\
  fst (@getOutput partialWorld (Some LIGHT) (demoConfig (lit "template.html") html_format)
         (lit "+1") fresh)
  = Returned (lit "<title>$& diff</title><body><div>+1</div></body>").
Proof.
  split; [reflexivity|]. split; [reflexivity|].
  rewrite (@getOutput_html partialWorld (Some LIGHT)
             (demoConfig (lit "template.html") html_format) (lit "+1") fresh
             partialTemplate (lit ".d2h-wrapper{}") (lit "var diff2htmlUi;")
             eq_refl eq_refl eq_refl eq_refl eq_refl).
  vm_compute. reflexivity.
Defined.

Lemma getOutput_unreadable_template_witness :
  truthy [] && negb (@existsSync demoWorld []) = false /\
  @fileContent demoWorld [] = None /\
  @getOutput demoWorld None (demoConfig [] html_format) (lit "+1") fresh
  = (Thrown (ReadError []),
     {| exitCode := None; trace := [EvParse (lit "+1"); EvRender; EvReadFile []] |}).
Proof.
  split; [reflexivity|]. split; [reflexivity|].
  exact (@getOutput_unreadable_template demoWorld None (demoConfig [] html_format)
           (lit "+1") fresh eq_refl eq_refl eq_refl).
Defined.

(** ** Remote publisher: failures and the upload *)

Section RemotePublisherMore.

Context {R : Runtime}.

(** Whatever the service answers, [postToDiffy] uploads first, once, to the
    fixed endpoint, does after that nothing but print, open or copy, and
    leaves the exit code alone. *)
Theorem postToDiffy_uploads_once (diff : str) (diffyOutput : DiffyType) (p : Process) :
  exitCode (snd (postToDiffy diff diffyOutput p)) = exitCode p
  /\ exists rest,
       trace (snd (postToDiffy diff diffyOutput p))
       = trace p ++ EvPut (lit "https://diffy.org/api/diff/") diff :: rest
       /\ forall ev, In ev rest ->
            match ev with
            | EvPrint _ | EvOpen _ | EvClipboard _ => True
            | _ => False
            end.
Proof.
  unfold postToDiffy, put, clipboardy_writeSync, log_print, open, isCreateDiffResponse,
    isApiError, field, bind, emit, throw, ret, liftOutcome.
  destruct (remoteResponse (lit "https://diffy.org/api/diff/") diff) as [body|e];
    cbn [exitCode trace fst snd].
  - destruct (getProperty body (lit "id")) as [[i|]|e] eqn:Hid; cbn [negb templateString].
    + destruct (ToString i) as [id|e]; cbn [exitCode trace fst snd].
      * destruct diffyOutput; cbn [exitCode trace fst snd];
          try destruct (clipboardWrite (lit "https://diffy.org/diff/" ++ id));
          cbn [exitCode trace fst snd];
          (split; [reflexivity|]); rewrite <- !app_assoc; cbn [app];
          eexists; (split; [reflexivity|]);
          intros ev Hev; simpl in Hev; intuition (subst; exact I).
      * split; [reflexivity|]. exists []. split; [reflexivity | intros ev []].
    + destruct (getProperty body (lit "error")) as [[e|]|e] eqn:He;
        cbn [exitCode trace fst snd templateString];
        try destruct (ToString e); cbn [exitCode trace fst snd];
        (split; [reflexivity|]);
        exists []; (split; [reflexivity | intros ev []]).
    + cbn [exitCode trace fst snd]. split; [reflexivity|].
      exists []. split; [reflexivity | intros ev []].
  - split; [reflexivity|]. exists []. split; [reflexivity | intros ev []].
Qed.

(** A call that fails has opened no browser, and has printed nothing unless
    the failure is the clipboard's: either the upload is its only call (the
    upload failed, the answer is [null], has no [id], or holds a value that
    does not convert to a string), or the mode is the clipboard's, the link
    was printed and the clipboard refused it.  A failure of the upload itself
    is passed on as it is. *)
Theorem postToDiffy_failure_is_silent (diff : str) (diffyOutput : DiffyType)
    (p : Process) (e : JsError) :
  fst (postToDiffy diff diffyOutput p) = Thrown e ->
  (snd (postToDiffy diff diffyOutput p)
   = {| exitCode := exitCode p;
        trace := trace p ++ [EvPut (lit "https://diffy.org/api/diff/") diff] |}
   \/ (diffyOutput = pbcopy
       /\ exists url,
            clipboardWrite url = Thrown e
            /\ snd (postToDiffy diff diffyOutput p)
               = {| exitCode := exitCode p;
                    trace := trace p
                             ++ [EvPut (lit "https://diffy.org/api/diff/") diff;
                                 EvPrint (lit "Link powered by https://diffy.org");
                                 EvPrint url; EvClipboard url] |}))
  /\ (forall e', remoteResponse (lit "https://diffy.org/api/diff/") diff = Thrown e' ->
        e = e').
Proof.
  unfold postToDiffy, put, clipboardy_writeSync, log_print, open, isCreateDiffResponse,
    isApiError, field, bind, emit, throw, ret, liftOutcome.
  destruct (remoteResponse (lit "https://diffy.org/api/diff/") diff) as [body|e0];
    cbn [exitCode trace fst snd].
  - destruct (getProperty body (lit "id")) as [[i|]|e1] eqn:Hid; cbn [negb templateString].
    + destruct (ToString i) as [id|e1]; cbn [exitCode trace fst snd].
      * destruct diffyOutput; cbn [exitCode trace fst snd]; try discriminate.
        destruct (clipboardWrite (lit "https://diffy.org/diff/" ++ id)) as [[]|e1] eqn:Hclip;
          cbn [exitCode trace fst snd]; [discriminate|].
        intros E. injection E as <-. split; [|discriminate].
        right. split; [reflexivity|].
        exists (lit "https://diffy.org/diff/" ++ id). split; [exact Hclip|].
        rewrite <- !app_assoc. reflexivity.
      * intros _. split; [left; reflexivity | discriminate].
    + destruct (getProperty body (lit "error")) as [[e1|]|e1] eqn:He;
        cbn [exitCode trace fst snd templateString];
        try destruct (ToString e1); cbn [exitCode trace fst snd];
        intros _; (split; [left; reflexivity | discriminate]).
    + cbn [fst snd]. intros _. split; [left; reflexivity | discriminate].
  - intros E. injection E as <-. split; [left; reflexivity|].
    intros e' E'. injection E' as <-. reflexivity.
Qed.

(** An answer that is [null] is neither of the two failures the code words
    itself: probing it for [id] throws a type error, before the [error] field
    is looked for and before a body dump is made. *)
Theorem postToDiffy_null_body (diff : str) (diffyOutput : DiffyType) (p : Process) :
  remoteResponse (lit "https://diffy.org/api/diff/") diff = Returned JNull ->
  exists message,
    postToDiffy diff diffyOutput p
    = (Thrown (TypeError message),
       {| exitCode := exitCode p;
          trace := trace p ++ [EvPut (lit "https://diffy.org/api/diff/") diff] |}).
Proof.
  intros Hbody. eexists. unfold postToDiffy. unfold bind at 1.
  rewrite (put_answer _ _ _ _ Hbody). reflexivity.
Qed.

End RemotePublisherMore.

Lemma postToDiffy_failure_is_silent_witness :
  fst (@postToDiffy noClipboardWorld (lit "+1") pbcopy fresh)
  = Thrown (Error (lit "Couldn't find the `xsel` binary")) /\
  (snd (@postToDiffy noClipboardWorld (lit "+1") pbcopy fresh)
   = {| exitCode := None;
        trace := [] ++ [EvPut (lit "https://diffy.org/api/diff/") (lit "+1")] |}
   \/ (pbcopy = pbcopy
       /\ exists url,
            @clipboardWrite noClipboardWorld url
            = Thrown (Error (lit "Couldn't find the `xsel` binary"))
            /\ snd (@postToDiffy noClipboardWorld (lit "+1") pbcopy fresh)
               = {| exitCode := None;
                    trace := []
                             ++ [EvPut (lit "https://diffy.org/api/diff/") (lit "+1");
                                 EvPrint (lit "Link powered by https://diffy.org");
                                 EvPrint url; EvClipboard url] |})).
Proof.
  split; [reflexivity|].
  exact (proj1 (@postToDiffy_failure_is_silent noClipboardWorld (lit "+1") pbcopy fresh
                  (Error (lit "Couldn't find the `xsel` binary")) eq_refl)).
Defined.

Lemma postToDiffy_null_body_witness :
  @remoteResponse nullWorld (lit "https://diffy.org/api/diff/") (lit "+1") = Returned JNull /\
  exists message,
    @postToDiffy nullWorld (lit "+1") pbcopy fresh
    = (Thrown (TypeError message),
       {| exitCode := None;
          trace := [EvPut (lit "https://diffy.org/api/diff/") (lit "+1")] |}).
Proof.
  split; [reflexivity|].
  exact (@postToDiffy_null_body nullWorld (lit "+1") pbcopy fresh eq_refl).
Defined.

(** ** Git argument builder: a [--no-color] among the paths *)

(** The builder looks for [--no-color] in the whole caller list.  When the
    only one stands after the caller's [--], where git reads it as a path,
    the builder still adds none: the vector is [diff] and the caller's list,
    then the exclusion entries, with no [--no-color] among the options
    before the separator. *)
Theorem no_color_as_path_suppresses_flag (options paths ignore : list str) :
  ~ In (lit "--no-color") options ->
  In (lit "--no-color") paths ->
  generateGitDiffArgs (options ++ lit "--" :: paths) ignore
  = lit "diff" :: options ++ lit "--" :: paths ++ map exclude ignore.
Proof.
  intros _ Hin. rewrite generateGitDiffArgs_parts.
  assert (I : includes (options ++ lit "--" :: paths) (lit "--no-color") = true)
    by (apply includes_In, in_or_app; right; right; exact Hin).
  assert (J : includes (options ++ lit "--" :: paths) (lit "--") = true)
    by (apply includes_In, in_or_app; right; left; reflexivity).
  rewrite I, J.
  assert (D : match options ++ lit "--" :: paths with
              | [] => defaultArgs
              | _ :: _ => []
              end = []) by (destruct options; reflexivity).
  rewrite D. cbn [app]. rewrite <- app_assoc. cbn [app].
  destruct ignore; cbn [map app]; rewrite ?app_nil_r; reflexivity.
Qed.

Lemma no_color_as_path_suppresses_flag_witness :
  ~ In (lit "--no-color") [lit "--stat"] /\
  In (lit "--no-color") [lit "--no-color"] /\
  generateGitDiffArgs ([lit "--stat"] ++ lit "--" :: [lit "--no-color"]) [lit "dist"]
  = [lit "diff"; lit "--stat"; lit "--"; lit "--no-color"; lit ":(exclude)dist"].
Proof.
  assert (Hno : ~ In (lit "--no-color") [lit "--stat"]) by (simpl; intuition discriminate).
  split; [exact Hno|]. split; [left; reflexivity|].
  exact (no_color_as_path_suppresses_flag [lit "--stat"] [lit "--no-color"] [lit "dist"]
           Hno (or_introl eq_refl)).
Defined.
